(** * elrond-proxy-go: observer traversal of the account and transaction processors

    Shallow embedding of [process/accountProcessor.go] (GetAccount) and of the
    transaction processor (SendTransaction, SendMultipleTransactions,
    TransactionCostRequest, GetTransaction, GetTransactionByHashAndSenderAddress,
    GetTransactionStatus and their helpers).

    The collaborators the processors are built from are interfaces in the Go
    code ([core.PubkeyConverter], [Processor]); they are type classes here.
    Every upstream HTTP call is recorded in a log, and the answer of an observer
    may depend on everything that was requested before. *)

From stdpp Require Import gmap strings list fin_maps.
From Stdlib Require Import ZArith Lia DecimalString.

Local Open Scope string_scope.
Local Open Scope list_scope.
Local Open Scope Z_scope.

(** ** Data model *)

(** Go's [error] values; [None] is [nil] where an error is optional. The named
    constructors are the package-level error variables the processors return
    ([process.Err...] and [errors.Err...]); [ErrInvalidTxFields] carries the
    error whose text is its message and the one whose text is its reason;
    [ErrText] is an error produced by a collaborator (codec, coordinator,
    forwarder). *)
Inductive error : Type :=
  | ErrSendingRequest
  | ErrMissingObserver
  | ErrNoValidTransactionToSend
  | ErrInvalidSenderAddress
  | ErrInvalidReceiverAddress
  | ErrInvalidSignatureHex
  | ErrTransactionNotFound
  | ErrInvalidTxFields (Message Reason : error)
  | ErrText (msg : string).

(** Modelled from the spec: [data.Observer], whose declaration is not among the
    sources: "a record { Address: URL-string, ShardId: ShardID }". *)
Record Observer : Type := mkObserver {
  Address : string;
  ShardId : Z
}.

(** Modelled from the spec: [data.Transaction], whose declaration is not among
    the sources: "{ Nonce, Value, Sender, Receiver, GasPrice, GasLimit, Data,
    Signature, Index }"; [Index] is the transient routing field, a Go [int]. *)
Record Transaction : Type := mkTransaction {
  Nonce : Z;
  Value : string;
  Receiver : string;
  Sender : string;
  GasPrice : Z;
  GasLimit : Z;
  Data : string;
  Signature : string;
  Index : Z
}.

Definition setIndex (idx : Z) (tx : Transaction) : Transaction :=
  {| Nonce := Nonce tx; Value := Value tx; Receiver := Receiver tx;
     Sender := Sender tx; GasPrice := GasPrice tx; GasLimit := GasLimit tx;
     Data := Data tx; Signature := Signature tx; Index := idx |}.

(** Modelled from the spec: the fields of [transaction.ApiTransactionResult]
    (declared outside the sources) that the proxy reads: sender, receiver and
    status. *)
Record ApiTransactionResult : Type := mkApiTx {
  apiSender : string;
  apiReceiver : string;
  apiStatus : string
}.

(** Modelled from the spec: [data.Account], whose declaration is not among the
    sources; the account model with its address, nonce and balance. *)
Record Account : Type := mkAccount {
  accAddress : string;
  accNonce : Z;
  accBalance : string
}.

(** Modelled from the spec: [data.ResponseMultipleTransactions], whose
    declaration is not among the sources: "{NumOfTxs, TxsHashes}", a uint64
    and a [map[int]string]. *)
Record ResponseMultipleTransactions : Type := mkMulti {
  NumOfTxs : Z;
  TxsHashes : gmap Z string
}.

(** The typed reply structs handed to the forwarder as [outRef]. *)
Inductive respKind : Type :=
  | ResponseAccount
  | GetTransactionResponse
  | ResponseTransaction
  | ResponseMultiple
  | ResponseTxCost.

Definition respOf (k : respKind) : Type :=
  match k with
  | ResponseAccount => Account              (* .AccountData *)
  | GetTransactionResponse => ApiTransactionResult  (* .Transaction *)
  | ResponseTransaction => string           (* .TxHash *)
  | ResponseMultiple => ResponseMultipleTransactions
  | ResponseTxCost => Z                     (* .TxCost *)
  end.

(** What a forwarder call returns: status code, error, and the decoded reply. *)
Record reply (k : respKind) : Type := mkReply {
  code : Z;
  err : option error;
  out : respOf k
}.
Arguments mkReply {k} _ _ _.
Arguments code {k} _.
Arguments err {k} _.
Arguments out {k} _.

Inductive postBody : Type :=
  | BodyTx (tx : Transaction)
  | BodyTxs (txs : list Transaction).

(** One upstream call: the observer's address, the path, and the body. *)
Inductive request : Type :=
  | GET (address path : string)
  | POST (address path : string) (body : postBody).

(** ** Collaborators *)

Class PubkeyConverter : Type := {
  Decode : string -> error + list Byte.byte
}.

(** [Processor]. [CallRest h r k] is what the forwarder answers to request [r]
    decoded as [k] when [h] (newest first) has been requested before. *)
Class Processor : Type := {
  ComputeShardId : list Byte.byte -> error + Z;
  GetObservers : Z -> error + list Observer;
  GetAllObservers : list Observer;
  CallRest : list request -> request -> forall k : respKind, reply k
}.

(** The Go runtime and standard library: [hex.DecodeString], and the order in
    which a [range] over a map visits its entries (unspecified, any order). *)
Class Runtime : Type := {
  hexDecodeString : string -> error + list Byte.byte;
  rangeMap : forall V : Type, list request -> gmap Z V -> list (Z * V);
  rangeMap_perm : forall V h (m : gmap Z V), rangeMap V h m ≡ₚ map_to_list m
}.
Arguments rangeMap {_ V} _ _.

(** ** Constants *)

Definition StatusOK : Z := 200.
Definition StatusBadRequest : Z := 400.
Definition StatusNotFound : Z := 404.
Definition StatusRequestTimeout : Z := 408.
Definition StatusInternalServerError : Z := 500.

Definition AddressPath : string := "/address/".
Definition TransactionPath : string := "/transaction/".
Definition TransactionSendPath : string := "/transaction/send".
Definition MultipleTransactionsPath : string := "/transaction/send-multiple".
Definition TransactionCostPath : string := "/transaction/cost".
Definition UnknownStatusTx : string := "unknown".

(** Modelled from the spec: [core.MetachainShardId], declared outside the
    sources: "conventionally 0xFFFFFFFF", the largest uint32. *)
Definition MetachainShardId : Z := 4294967295.

(** [fmt.Sprintf("%d", n)] and [strconv.Itoa] on a Go integer. *)
Definition formatInt (n : Z) : string := NilZero.string_of_int (Z.to_int n).

(** ** Process state and the monad of the processors *)

Definition loc : Type := nat.

(** The transactions behind the [*data.Transaction] pointers, and the log of
    upstream calls, newest first. *)
Record state : Type := mkState {
  heap : gmap loc Transaction;
  calls : list request
}.

Inductive outcome (A : Type) : Type :=
  | Val (a : A)
  | Panic.
Arguments Val {A} _.
Arguments Panic {A}.

Definition M (A : Type) : Type := state -> outcome A * state.

Definition ret {A} (a : A) : M A := fun s => (Val a, s).

Definition bind {A B} (m : M A) (k : A -> M B) : M B :=
  fun s => match m s with
           | (Val a, s') => k a s'
           | (Panic, s') => (Panic, s')
           end.

Definition panic {A} : M A := fun s => (Panic, s).

Notation "x <- m ;; k" := (bind m (fun x => k))
  (at level 100, m at next level, right associativity).

(** Reading through a pointer; a nil or dangling pointer panics. *)
Definition deref (l : loc) : M Transaction :=
  fun s => match heap s !! l with
           | Some tx => (Val tx, s)
           | None => (Panic, s)
           end.

Definition isNil (e : option error) : bool :=
  match e with None => true | Some _ => false end.

Section Processors.
Context {pubKeyConverter : PubkeyConverter} {proc : Processor} {rt : Runtime}.

(** [CallGetRestEndPoint] / [CallPostRestEndPoint]: ask the forwarder, log the
    request. *)
Definition call (k : respKind) (r : request) : M (reply k) :=
  fun s => (Val (CallRest (calls s) r k),
            {| heap := heap s; calls := r :: calls s |}).

Definition CallGetRestEndPoint (address path : string) (k : respKind) : M (reply k) :=
  call k (GET address path).

Definition CallPostRestEndPoint (address path : string) (body : postBody)
    (k : respKind) : M (reply k) :=
  call k (POST address path body).

(** *** Account processor *)

Definition getObserversForAddress (address : string) : error + list Observer :=
  match Decode address with
  | inl e => inl e
  | inr addressBytes =>
    match ComputeShardId addressBytes with
    | inl e => inl e
    | inr shardID => GetObservers shardID
    end
  end.

(** The loop of [GetAccount]: the status code is dropped ([_, err = ...]). *)
Fixpoint getAccountLoop (address : string) (observers : list Observer)
    : M (option Account * option error) :=
  match observers with
  | [] => ret (None, Some ErrSendingRequest)
  | observer :: observers' =>
    r <- CallGetRestEndPoint (Address observer) (AddressPath +:+ address)
           ResponseAccount ;;
    if isNil (err r) then ret (Some (out r), None)
    else getAccountLoop address observers'
  end.

Definition GetAccount (address : string) : M (option Account * option error) :=
  match getObserversForAddress address with
  | inl e => ret (None, Some e)
  | inr observers => getAccountLoop address observers
  end.

(** *** Transaction field validation *)

Definition checkTransactionFields (tx : Transaction) : option error :=
  match Decode (Sender tx) with
  | inl e => Some (ErrInvalidTxFields ErrInvalidSenderAddress e)
  | inr _ =>
    match Decode (Receiver tx) with
    | inl e => Some (ErrInvalidTxFields ErrInvalidReceiverAddress e)
    | inr _ =>
      match hexDecodeString (Signature tx) with
      | inl e => Some (ErrInvalidTxFields ErrInvalidSignatureHex e)
      | inr _ => None
      end
    end
  end.

(** *** SendTransaction

    [tx *data.Transaction] is only read by SendTransaction and
    TransactionCostRequest; they take the transaction it points to. *)

Fixpoint sendTransactionLoop (tx : Transaction) (observers : list Observer)
    : M (Z * string * option error) :=
  match observers with
  | [] => ret (StatusInternalServerError, "", Some ErrSendingRequest)
  | observer :: observers' =>
    r <- CallPostRestEndPoint (Address observer) TransactionSendPath (BodyTx tx)
           ResponseTransaction ;;
    if (code r =? StatusOK) && isNil (err r) then
      ret (code r, out r, None)
    else if (code r =? StatusNotFound) || (code r =? StatusRequestTimeout) then
      sendTransactionLoop tx observers'
    else
      ret (code r, "", err r)
  end.

Definition SendTransaction (tx : Transaction) : M (Z * string * option error) :=
  match checkTransactionFields tx with
  | Some e => ret (StatusBadRequest, "", Some e)
  | None =>
    match Decode (Sender tx) with
    | inl e => ret (StatusBadRequest, "", Some e)
    | inr senderBuff =>
      match ComputeShardId senderBuff with
      | inl e => ret (StatusInternalServerError, "", Some e)
      | inr shardID =>
        match GetObservers shardID with
        | inl e => ret (StatusInternalServerError, "", Some e)
        | inr observers => sendTransactionLoop tx observers
        end
      end
    end
  end.

(** *** TransactionCostRequest *)

(** [int(x)] on a 64-bit platform: the identity on an int64, wrap-around on a
    uint64 from 2^63 on. *)
Definition toInt (x : Z) : Z := (x + 2 ^ 63) mod 2 ^ 64 - 2 ^ 63.

Fixpoint transactionCostLoop (tx : Transaction) (observers : list Observer)
    : M (string * option error) :=
  match observers with
  | [] => ret ("", Some ErrSendingRequest)
  | observer :: observers' =>
    if ShardId observer =? MetachainShardId then
      transactionCostLoop tx observers'
    else
      r <- CallPostRestEndPoint (Address observer) TransactionCostPath (BodyTx tx)
             ResponseTxCost ;;
      if (code r =? StatusOK) && isNil (err r) then
        ret (formatInt (toInt (out r)), None)
      else if (code r =? StatusNotFound) || (code r =? StatusRequestTimeout) then
        transactionCostLoop tx observers'
      else
        ret ("", err r)
  end.

Definition TransactionCostRequest (tx : Transaction) : M (string * option error) :=
  match checkTransactionFields tx with
  | Some e => ret ("", Some e)
  | None => transactionCostLoop tx GetAllObservers
  end.

(** *** GetTransaction *)

(** [errv] is the function-level [err] variable, overwritten by every call and
    returned after the loop. *)
Fixpoint getTransactionLoop (txHash : string) (observers : list Observer)
    (errv : option error) : M (option ApiTransactionResult * option error) :=
  match observers with
  | [] => ret (None, errv)
  | observer :: observers' =>
    r <- CallGetRestEndPoint (Address observer) (TransactionPath +:+ txHash)
           GetTransactionResponse ;;
    if negb (code r =? StatusOK) then getTransactionLoop txHash observers' (err r)
    else if negb (isNil (err r)) then getTransactionLoop txHash observers' (err r)
    else ret (Some (out r), None)
  end.

Definition GetTransaction (txHash : string)
    : M (option ApiTransactionResult * option error) :=
  getTransactionLoop txHash GetAllObservers None.

(** *** Shard of an address *)

Definition getShardByAddress (address : string) : Z * option error :=
  let metachainIDStr := formatInt MetachainShardId in
  if negb (String.eqb address metachainIDStr) then
    match Decode address with
    | inl e => (0, Some e)
    | inr senderBuff =>
      match ComputeShardId senderBuff with
      | inl e => (0, Some e)
      | inr shardID => (shardID, None)
      end
    end
  else (MetachainShardId, None).

(** *** GetTransactionByHashAndSenderAddress *)

Fixpoint getTransactionBySenderLoop (txHash : string) (observers : list Observer)
    : M (option ApiTransactionResult * Z * option error) :=
  match observers with
  | [] => ret (None, StatusNotFound, Some ErrTransactionNotFound)
  | observer :: observers' =>
    r <- CallGetRestEndPoint (Address observer) (TransactionPath +:+ txHash)
           GetTransactionResponse ;;
    if negb (code r =? StatusOK) then getTransactionBySenderLoop txHash observers'
    else if negb (isNil (err r)) then getTransactionBySenderLoop txHash observers'
    else ret (Some (out r), StatusOK, None)
  end.

Definition GetTransactionByHashAndSenderAddress (txHash sndAddr : string)
    : M (option ApiTransactionResult * Z * option error) :=
  match getShardByAddress sndAddr with
  | (_, Some _) => ret (None, StatusBadRequest, Some ErrInvalidSenderAddress)
  | (shardID, None) =>
    match GetObservers shardID with
    | inl e => ret (None, StatusInternalServerError, Some e)
    | inr observers => getTransactionBySenderLoop txHash observers
    end
  end.

(** *** GetTransactionStatus *)

Definition getTxFromObserver (observer : Observer) (txHash : string)
    : M (option ApiTransactionResult) :=
  r <- CallGetRestEndPoint (Address observer) (TransactionPath +:+ txHash)
         GetTransactionResponse ;;
  if negb (isNil (err r)) then ret None
  else if negb (code r =? StatusOK) then ret None
  else ret (Some (out r)).

Fixpoint destShardLoop (txHash : string) (destinationShardObservers : list Observer)
    : M (string * bool) :=
  match destinationShardObservers with
  | [] => ret ("", false)
  | dstObserver :: observers' =>
    r <- CallGetRestEndPoint (Address dstObserver) (TransactionPath +:+ txHash)
           GetTransactionResponse ;;
    if negb (isNil (err r)) then destShardLoop txHash observers'
    else if negb (code r =? StatusOK) then destShardLoop txHash observers'
    else ret (apiStatus (out r), true)
  end.

Definition getTxStatusFromDestShard (txHash : string) (dstShardID : Z)
    : M (string * bool) :=
  match GetObservers dstShardID with
  | inl _ => ret ("", false)
  | inr destinationShardObservers => destShardLoop txHash destinationShardObservers
  end.

Fixpoint txStatusWithSenderLoop (txHash : string) (sndShardID : Z)
    (observers : list Observer) : M (string * option error) :=
  match observers with
  | [] => ret (UnknownStatusTx, Some ErrTransactionNotFound)
  | observer :: observers' =>
    hit <- getTxFromObserver observer txHash ;;
    match hit with
    | None => txStatusWithSenderLoop txHash sndShardID observers'
    | Some getTxResponse =>
      let rcvShardID := fst (getShardByAddress (apiReceiver getTxResponse)) in
      let isIntraShard := rcvShardID =? sndShardID in
      if isIntraShard then ret (apiStatus getTxResponse, None)
      else
        dst <- getTxStatusFromDestShard txHash rcvShardID ;;
        if snd dst then ret (fst dst, None)
        else ret (apiStatus getTxResponse, None)
    end
  end.

Definition getTxStatusWithSenderAddr (txHash sender : string)
    : M (string * option error) :=
  match getShardByAddress sender with
  | (_, Some _) => ret (UnknownStatusTx, Some ErrInvalidSenderAddress)
  | (sndShardID, None) =>
    match GetObservers sndShardID with
    | inl e => ret (UnknownStatusTx, Some e)
    | inr observers => txStatusWithSenderLoop txHash sndShardID observers
    end
  end.

Fixpoint transactionStatusLoop (txHash : string) (allObservers : list Observer)
    : M (string * option error) :=
  match allObservers with
  | [] => ret (UnknownStatusTx, Some ErrTransactionNotFound)
  | observer :: observers' =>
    hit <- getTxFromObserver observer txHash ;;
    match hit with
    | None => transactionStatusLoop txHash observers'
    | Some getTxResponse =>
      let sndShardID := fst (getShardByAddress (apiSender getTxResponse)) in
      let rcvShardID := fst (getShardByAddress (apiReceiver getTxResponse)) in
      let isIntraShard := sndShardID =? rcvShardID in
      let observerIsInDestShard := rcvShardID =? ShardId observer in
      if isIntraShard || observerIsInDestShard then
        ret (apiStatus getTxResponse, None)
      else
        dst <- getTxStatusFromDestShard txHash rcvShardID ;;
        if snd dst then ret (fst dst, None)
        else ret (apiStatus getTxResponse, None)
    end
  end.

Definition GetTransactionStatus (txHash sender : string) : M (string * option error) :=
  if negb (String.eqb sender "") then getTxStatusWithSenderAddr txHash sender
  else transactionStatusLoop txHash GetAllObservers.

(** *** SendMultipleTransactions *)

(** Writing through a pointer. *)
Definition store (l : loc) (tx : Transaction) : M unit :=
  fun s => (Val tt, {| heap := <[l := tx]> (heap s); calls := calls s |}).

Definition history : M (list request) := fun s => (Val (calls s), s).

(** [tx.Index = idx] is a write through the pointer taken from the slice. *)
Fixpoint groupTxsLoop (idx : Z) (txs : list loc) (txsMap : gmap Z (list loc))
    : M (gmap Z (list loc)) :=
  match txs with
  | [] => ret txsMap
  | p :: txs' =>
    tx <- deref p ;;
    match Decode (Sender tx) with
    | inl _ => groupTxsLoop (idx + 1) txs' txsMap
    | inr senderBytes =>
      match ComputeShardId senderBytes with
      | inl _ => groupTxsLoop (idx + 1) txs' txsMap
      | inr senderShardID =>
        _ <- store p (setIndex idx tx) ;;
        groupTxsLoop (idx + 1) txs'
          (<[senderShardID := default [] (txsMap !! senderShardID) ++ [p]]> txsMap)
      end
    end
  end.

Definition groupTxsByShard (txs : list loc) : M (gmap Z (list loc)) :=
  groupTxsLoop 0 txs ∅.

Fixpoint validTxsLoop (txs : list loc) (txsToSend : list loc) : M (list loc) :=
  match txs with
  | [] => ret txsToSend
  | currentTx :: txs' =>
    tx <- deref currentTx ;;
    match checkTransactionFields tx with
    | Some _ => validTxsLoop txs' txsToSend
    | None => validTxsLoop txs' (txsToSend ++ [currentTx])
    end
  end.

(** The forwarder serialises the transactions the slice points to. *)
Fixpoint derefAll (ps : list loc) : M (list Transaction) :=
  match ps with
  | [] => ret []
  | p :: ps' =>
    tx <- deref p ;;
    txs <- derefAll ps' ;;
    ret (tx :: txs)
  end.

(** [txsHashes[groupOfTxs[key].Index] = hash] for the entries of the reply;
    indexing the slice out of range panics. *)
Fixpoint mergeHashesLoop (groupOfTxs : list loc) (entries : list (Z * string))
    (txsHashes : gmap Z string) : M (gmap Z string) :=
  match entries with
  | [] => ret txsHashes
  | (key, hash) :: entries' =>
    if key <? 0 then panic
    else
      match groupOfTxs !! Z.to_nat key with
      | None => panic
      | Some p =>
        tx <- deref p ;;
        mergeHashesLoop groupOfTxs entries' (<[Index tx := hash]> txsHashes)
      end
  end.

(** The observers of one shard; [break] leaves the loop at the first success.
    [totalTxsSent] is a uint64. *)
Fixpoint sendGroupLoop (groupOfTxs : list loc) (observersInShard : list Observer)
    (totalTxsSent : Z) (txsHashes : gmap Z string) : M (Z * gmap Z string) :=
  match observersInShard with
  | [] => ret (totalTxsSent, txsHashes)
  | observer :: observers' =>
    body <- derefAll groupOfTxs ;;
    r <- CallPostRestEndPoint (Address observer) MultipleTransactionsPath
           (BodyTxs body) ResponseMultiple ;;
    if (code r =? StatusOK) && isNil (err r) then
      h <- history ;;
      txsHashes' <- mergeHashesLoop groupOfTxs (rangeMap h (TxsHashes (out r)))
                      txsHashes ;;
      ret ((totalTxsSent + NumOfTxs (out r)) mod 2 ^ 64, txsHashes')
    else
      sendGroupLoop groupOfTxs observers' totalTxsSent txsHashes
  end.

Fixpoint sendGroupsLoop (groups : list (Z * list loc)) (totalTxsSent : Z)
    (txsHashes : gmap Z string)
    : M (ResponseMultipleTransactions * option error) :=
  match groups with
  | [] => ret ({| NumOfTxs := totalTxsSent; TxsHashes := txsHashes |}, None)
  | (shardID, groupOfTxs) :: groups' =>
    match GetObservers shardID with
    | inl _ => ret ({| NumOfTxs := 0; TxsHashes := ∅ |}, Some ErrMissingObserver)
    | inr observersInShard =>
      acc <- sendGroupLoop groupOfTxs observersInShard totalTxsSent txsHashes ;;
      sendGroupsLoop groups' (fst acc) (snd acc)
    end
  end.

Definition SendMultipleTransactions (txs : list loc)
    : M (ResponseMultipleTransactions * option error) :=
  txsToSend <- validTxsLoop txs [] ;;
  if (length txsToSend =? 0)%nat then
    ret ({| NumOfTxs := 0; TxsHashes := ∅ |}, Some ErrNoValidTransactionToSend)
  else
    txsByShardID <- groupTxsByShard txsToSend ;;
    h <- history ;;
    sendGroupsLoop (rangeMap h txsByShardID) 0 ∅.

End Processors.

(** ** What the observers answer along a traversal *)

Section Traversal.
Context {proc : Processor}.

(** The three outcomes of section 4.4 of the design, read off a reply. *)
Definition isSuccess {k} (r : reply k) : bool :=
  (code r =? StatusOK) && isNil (err r).

Definition isSkip {k} (r : reply k) : bool :=
  (code r =? StatusNotFound) || (code r =? StatusRequestTimeout).

Definition isFatal {k} (r : reply k) : bool :=
  negb (isSuccess r) && negb (isSkip r).

(** The log after the observers [os] were each sent the request [mk o], in
    order, starting from the log [h]. *)
Definition visited (mk : Observer -> request) (os : list Observer)
    (h : list request) : list request :=
  rev (map mk os) ++ h.

Definition logged (mk : Observer -> request) (os : list Observer) (s : state)
    : state :=
  {| heap := heap s; calls := visited mk os (calls s) |}.

(** Every observer of [os], asked [mk o] in its turn, gives an answer that
    satisfies [P]. *)
Fixpoint allAnswer (k : respKind) (P : reply k -> bool) (mk : Observer -> request)
    (h : list request) (os : list Observer) : bool :=
  match os with
  | [] => true
  | o :: os' => P (CallRest h (mk o) k) && allAnswer k P mk (mk o :: h) os'
  end.

End Traversal.

Definition sendRequest (tx : Transaction) (o : Observer) : request :=
  POST (Address o) TransactionSendPath (BodyTx tx).

Definition costRequest (tx : Transaction) (o : Observer) : request :=
  POST (Address o) TransactionCostPath (BodyTx tx).

Definition txRequest (txHash : string) (o : Observer) : request :=
  GET (Address o) (TransactionPath +:+ txHash).

Definition accountRequest (address : string) (o : Observer) : request :=
  GET (Address o) (AddressPath +:+ address).

(** A read "hits" when the forwarder reports no error and code 200. *)
Definition isHit {k} (r : reply k) : bool :=
  isNil (err r) && (code r =? StatusOK).

(** ** Notions used to state the properties *)

Section Notions.
Context {pubKeyConverter : PubkeyConverter} {proc : Processor} {rt : Runtime}.

Definition nonMetachain (os : list Observer) : list Observer :=
  filter (fun o => ShardId o ≠ MetachainShardId) os.

(** The forwarder reported an error, whatever the status code. *)
Definition hasError {k} (r : reply k) : bool := negb (isNil (err r)).

Definition isMiss {k} (r : reply k) : bool := negb (isHit r).

(** The error the forwarder reported for the last observer of [os] (asked in
    turn from the log [h]); [errv] when [os] is empty. *)
Fixpoint lastError (k : respKind) (mk : Observer -> request) (h : list request)
    (os : list Observer) (errv : option error) : option error :=
  match os with
  | [] => errv
  | o :: os' => lastError k mk (mk o :: h) os' (err (CallRest h (mk o) k))
  end.

(** The candidate observers of a status request: all observers without a
    sender hint, the observers of the hinted sender's shard otherwise. *)
Definition statusCandidates (sender : string) (candidates : list Observer) : Prop :=
  (sender = "" /\ candidates = GetAllObservers)
  \/ (sender ≠ "" /\ exists sndShardID,
        getShardByAddress sender = (sndShardID, None)
        /\ GetObservers sndShardID = inr candidates).

(** What both status loops do once a cross-shard transaction was answered
    from its source shard: ask the destination shard, fall back otherwise. *)
Definition override (txHash : string) (rcvShardID : Z) (sourceStatus : string)
    : M (string * option error) :=
  dst <- getTxStatusFromDestShard txHash rcvShardID ;;
  if snd dst then ret (fst dst, None) else ret (sourceStatus, None).

(** A cross-shard transaction answered from its source shard: [o] is the first
    candidate that answers with code 200 and no error; without a sender hint
    [o] sits in the shard of the transaction's sender, with a hint the
    candidates are the observers of the hinted sender's shard. *)
Definition answeredFromSource (sender : string) (candidates : list Observer)
    (o : Observer) (tx : ApiTransactionResult) (sndShardID : Z) : Prop :=
  (sender = "" /\ candidates = GetAllObservers
   /\ sndShardID = fst (getShardByAddress (apiSender tx))
   /\ ShardId o = sndShardID)
  \/ (sender ≠ "" /\ getShardByAddress sender = (sndShardID, None)
      /\ GetObservers sndShardID = inr candidates).

(** The three parts of the frame property for one location. *)
Definition onlyIndexWritten (txs : list loc) (s s' : state) (l : loc) : Prop :=
  (heap s !! l = None -> heap s' !! l = None)
  /\ (forall tx, heap s !! l = Some tx ->
        exists idx, heap s' !! l = Some (setIndex idx tx))
  /\ (forall tx, heap s !! l = Some tx ->
        l ∉ txs \/ checkTransactionFields tx ≠ None ->
        heap s' !! l = Some tx).

(** *** Bulk sending *)

(** The shard of a transaction's sender, when it can be computed. *)
Definition senderShard (tx : Transaction) : option Z :=
  match Decode (Sender tx) with
  | inl _ => None
  | inr senderBytes =>
    match ComputeShardId senderBytes with
    | inl _ => None
    | inr shardID => Some shardID
    end
  end.

Definition validAt (hp : gmap loc Transaction) (l : loc) : bool :=
  match hp !! l with
  | Some tx => isNil (checkTransactionFields tx)
  | None => false
  end.

(** [l] points to a transaction that validates and whose sender is in [sh]. *)
Definition routedTo (hp : gmap loc Transaction) (sh : Z) (l : loc) : bool :=
  match hp !! l with
  | Some tx =>
    isNil (checkTransactionFields tx) && bool_decide (senderShard tx = Some sh)
  | None => false
  end.

(** The group of shard [sh]: the pointers of the input routed to [sh], in
    input order; and the transactions they point to. *)
Definition groupOf (hp : gmap loc Transaction) (sh : Z) (txs : list loc) : list loc :=
  filter (fun l => routedTo hp sh l = true) txs.

Definition groupBody (hp : gmap loc Transaction) (sh : Z) (txs : list loc)
    : list Transaction :=
  omap (fun l => hp !! l) (groupOf hp sh txs).

(** The sender shard of the transaction a pointer leads to. *)
Definition shardAt (hp : gmap loc Transaction) (l : loc) : option Z :=
  match hp !! l with
  | Some tx => senderShard tx
  | None => None
  end.

(** The calls logged on top of [h0] (newest first in [new]), oldest first, each
    with the log it was issued at. *)
Fixpoint issued (new h0 : list request) : list (list request * request) :=
  match new with
  | [] => []
  | r :: new' => issued new' h0 ++ [(new' ++ h0, r)]
  end.

(** A bulk POST the observer accepted (code 200, no error), and its answer. *)
Definition accepted (c : list request * request) : bool :=
  isSuccess (CallRest (fst c) (snd c) ResponseMultiple).

Definition answerOf (c : list request * request) : ResponseMultipleTransactions :=
  out (CallRest (fst c) (snd c) ResponseMultiple).

Definition bodyOf (r : request) : list Transaction :=
  match r with
  | POST _ _ (BodyTxs body) => body
  | _ => []
  end.

(** The sum of the NumOfTxs the accepted calls reported. *)
Fixpoint totalSent (cs : list (list request * request)) : Z :=
  match cs with
  | [] => 0
  | c :: cs' => (if accepted c then NumOfTxs (answerOf c) else 0) + totalSent cs'
  end.

(** Accepted bulk POSTs report hashes only for positions of the batch they
    were sent. *)
Definition positionsInBatch : Prop :=
  forall h a body k,
    let r := CallRest h (POST a MultipleTransactionsPath (BodyTxs body))
               ResponseMultiple in
    isSuccess r = true -> is_Some (TxsHashes (out r) !! k) ->
    0 <= k < Z.of_nat (length body).

(** [acc'] is [acc] with the hashes of the accepted calls of [cs] merged in. *)
Definition merged (cs : list (list request * request)) (acc acc' : gmap Z string)
    : Prop :=
  (forall i, is_Some (acc !! i) -> is_Some (acc' !! i))
  /\ (forall i hsh, acc' !! i = Some hsh ->
        acc !! i = Some hsh
        \/ exists c k tx,
             c ∈ cs /\ accepted c = true
             /\ TxsHashes (answerOf c) !! k = Some hsh
             /\ bodyOf (snd c) !! Z.to_nat k = Some tx /\ Index tx = i)
  /\ (forall c k hsh,
        c ∈ cs -> accepted c = true ->
        TxsHashes (answerOf c) !! k = Some hsh ->
        exists tx, bodyOf (snd c) !! Z.to_nat k = Some tx
                   /\ is_Some (acc' !! Index tx)).

Definition bulkRequest (body : list Transaction) (o : Observer) : request :=
  POST (Address o) MultipleTransactionsPath (BodyTxs body).

(** What makes a list of groups ready to be sent from state [s]: the observers
    of each shard are known and each pointer has its transaction. *)
Definition sendable (s : state) (gs : list (Z * list loc)) : Prop :=
  Forall (fun sg =>
            (exists obs, GetObservers (fst sg) = inr obs)
            /\ exists b, Forall2 (fun l tx => heap s !! l = Some tx) (snd sg) b)
         gs.

(** A logged call is the batch of one of the groups. *)
Definition batchOf (s : state) (gs : list (Z * list loc))
    (c : list request * request) : Prop :=
  exists sh g obs o,
    (sh, g) ∈ gs /\ GetObservers sh = inr obs /\ o ∈ obs
    /\ Forall2 (fun l tx => heap s !! l = Some tx) g (bodyOf (snd c))
    /\ snd c = bulkRequest (bodyOf (snd c)) o.

End Notions.

(** ** GetValueForKey

    The reply of [/address/{addr}/key/{key}] is decoded into a
    [map[string]interface{}]: a JSON document. *)

(** What [encoding/json] decodes into an [interface{}]. A number is kept as
    its literal (Go holds it as a float64); [JNull] is the nil interface,
    which is also what indexing a Go map at a missing key gives. *)
#[warnings="-register-all"]
Inductive json : Type :=
  | JNull
  | JBool (b : bool)
  | JNumber (literal : string)
  | JString (s : string)
  | JArray (items : list json)
  | JObject (fields : gmap string json).

(** [fmt.Sprint] / [fmt.Sprintf("%v", _)] of a decoded value. *)
Class Fmt : Type := {
  Sprint : json -> string
}.

(** What the forwarder answers when [outRef] is a
    [*map[string]interface{}]: code, error, and the map after decoding. *)
Record genericReply : Type := mkGenericReply {
  gCode : Z;
  gErr : option error;
  gOut : gmap string json
}.

(** [Processor.CallGetRestEndPoint] at that reply type. *)
Class GenericForwarder : Type := {
  CallRestGeneric : list request -> request -> genericReply
}.

Section KeyValue.
Context {pubKeyConverter : PubkeyConverter} {proc : Processor}
        {fmt : Fmt} {generic : GenericForwarder}.

Definition getValueOrError (response : gmap string json) : string * option error :=
  match response !! "value" with
  | Some value => (Sprint value, None)
  | None =>
    match response !! "error" with
    | Some err => ("", Some (ErrText (Sprint err)))
    | None => ("", Some (ErrText "unexpected response"))
    end
  end.

Definition callGeneric (r : request) : M genericReply :=
  fun s => (Val (CallRestGeneric (calls s) r),
            {| heap := heap s; calls := r :: calls s |}).

Definition keyRequest (address key : string) (o : Observer) : request :=
  GET (Address o) (AddressPath +:+ address +:+ "/key/" +:+ key).

Fixpoint getValueForKeyLoop (address key : string) (observers : list Observer)
    : M (string * option error) :=
  match observers with
  | [] => ret ("", Some ErrSendingRequest)
  | observer :: observers' =>
    let apiPath := AddressPath +:+ address +:+ "/key/" +:+ key in
    r <- callGeneric (GET (Address observer) apiPath) ;;
    if negb (isNil (gErr r)) then getValueForKeyLoop address key observers'
    else ret (getValueOrError (gOut r))
  end.

Definition GetValueForKey (address key : string) : M (string * option error) :=
  match getObserversForAddress address with
  | inl e => ret ("", Some e)
  | inr observers => getValueForKeyLoop address key observers
  end.

(** Every observer of [os], asked [mk o] in its turn, answers with an error. *)
Fixpoint allGenericFail (mk : Observer -> request) (h : list request)
    (os : list Observer) : bool :=
  match os with
  | [] => true
  | o :: os' =>
    negb (isNil (gErr (CallRestGeneric h (mk o))))
    && allGenericFail mk (mk o :: h) os'
  end.

End KeyValue.

(** ** The transaction routes of the API (package [transaction])

    A handler reads the facade from the request context, binds the JSON body,
    and writes one JSON response. *)

Module Api.

Definition FaucetDefaultValue : Z := 10000.
Definition FaucetMaxValue : Z := 1000000.

(** [providedVal *big.Int]: [None] is nil. [faucetMax.Cmp(providedVal) == -1]
    is [faucetMax < providedVal]. *)
Definition validateAndSetFaucetValue (providedVal : option Z) : Z :=
  let faucetDefault := FaucetDefaultValue in
  let faucetMax := FaucetMaxValue in
  match providedVal with
  | None => faucetDefault
  | Some v => if faucetMax <? v then faucetDefault else v
  end.

(** Modelled from the spec: the errors of package [api/errors] that only the
    handlers name; their declarations are not among the sources. *)
Inductive apiError : Type :=
  | ErrInvalidAppContext
  | ErrValidation
  | ErrTxGenerationFailed.

(** The JSON object a handler writes: [{"error": text}] with the text of one
    error or of two joined by ": ", [{"txHash": _}], [{"message": _}],
    [{"txHashes": _}]. *)
Inductive body (R : Type) : Type :=
  | ErrorOf (e : apiError)
  | ErrorWith (e : apiError) (detail : error)
  | ErrorPair (err1 err2 : error)
  | TxHashOf (txHash : string)
  | MessageOf (message : string)
  | TxHashesOf (txHashes : R).
Arguments ErrorOf {R} _.
Arguments ErrorWith {R} _ _.
Arguments ErrorPair {R} _ _.
Arguments TxHashOf {R} _.
Arguments MessageOf {R} _.
Arguments TxHashesOf {R} _.

Record response (R : Type) : Type := mkResponse {
  status : Z;
  payload : body R
}.
Arguments mkResponse {R} _ _.
Arguments status {R} _.
Arguments payload {R} _.

(** Modelled from the spec: [FacadeHandler] of package [transaction], whose
    declaration is not among the sources. These are the three methods the
    handlers call, with the results the handlers take from them; [R] is what
    SendMultipleTransactions hands back beside its error. *)
Class FacadeHandler (R : Type) : Type := {
  facadeSendTransaction : Transaction -> string * option error;
  facadeSendUserFunds : string -> Z -> option error;
  facadeSendMultipleTransactions : list Transaction -> R * option error
}.

(** [c.MustGet("elrondProxyFacade").(FacadeHandler)]: the key may be absent
    (MustGet panics), hold something else, or hold a facade. *)
Inductive appContext (F : Type) : Type :=
  | NoFacadeKey
  | NotAFacade
  | HasFacade (ef : F).
Arguments NoFacadeKey {F}.
Arguments NotAFacade {F}.
Arguments HasFacade {F} _.

(** Modelled from the spec: [data.FundsRequest], whose declaration is not
    among the sources; the two fields SendUserFunds reads, [Value] being a
    [*big.Int]. *)
Record FundsRequest : Type := mkFundsRequest {
  fundsReceiver : string;
  fundsValue : option Z
}.

Section Handlers.
Context {rt : Runtime} {R : Type} {facade : FacadeHandler R}.

Definition checkTransactionFields (tx : Transaction) : option error * option error :=
  match hexDecodeString (Sender tx) with
  | inl e => (Some ErrInvalidSenderAddress, Some e)
  | inr _ =>
    match hexDecodeString (Receiver tx) with
    | inl e => (Some ErrInvalidReceiverAddress, Some e)
    | inr _ =>
      match hexDecodeString (Signature tx) with
      | inl e => (Some ErrInvalidSignatureHex, Some e)
      | inr _ => (None, None)
      end
    end
  end.

(** [ShouldBindJSON] has run on the body: [bound] is its error or the value it
    decoded. *)
Definition SendTransaction (c : appContext (FacadeHandler R))
    (bound : error + Transaction) : outcome (response R) :=
  match c with
  | NoFacadeKey => Panic
  | NotAFacade => Val (mkResponse StatusInternalServerError (ErrorOf ErrInvalidAppContext))
  | HasFacade ef =>
    match bound with
    | inl e => Val (mkResponse StatusBadRequest (ErrorWith ErrValidation e))
    | inr tx =>
      match checkTransactionFields tx with
      | (Some err1, Some err2) =>
        Val (mkResponse StatusBadRequest (ErrorPair err1 err2))
      | _ =>
        match @facadeSendTransaction R ef tx with
        | (_, Some e) =>
          Val (mkResponse StatusInternalServerError (ErrorWith ErrTxGenerationFailed e))
        | (txHash, None) => Val (mkResponse StatusOK (TxHashOf txHash))
        end
      end
    end
  end.

Definition SendUserFunds (c : appContext (FacadeHandler R))
    (bound : error + FundsRequest) : outcome (response R) :=
  match c with
  | NoFacadeKey => Panic
  | NotAFacade => Val (mkResponse StatusInternalServerError (ErrorOf ErrInvalidAppContext))
  | HasFacade ef =>
    match bound with
    | inl e => Val (mkResponse StatusBadRequest (ErrorWith ErrValidation e))
    | inr gtx =>
      match @facadeSendUserFunds R ef (fundsReceiver gtx)
              (validateAndSetFaucetValue (fundsValue gtx)) with
      | Some e =>
        Val (mkResponse StatusInternalServerError (ErrorWith ErrTxGenerationFailed e))
      | None => Val (mkResponse StatusOK (MessageOf "ok"))
      end
    end
  end.

(** The loop over the bound transactions; a [null] element is a nil pointer,
    and reading its fields panics. It ends with the 400 response of the first
    transaction with a bad field, or with [None] when all pass. *)
Fixpoint checkAll (txs : list (option Transaction)) : outcome (option (response R)) :=
  match txs with
  | [] => Val None
  | None :: _ => Panic
  | Some tx :: txs' =>
    match checkTransactionFields tx with
    | (Some err1, Some err2) =>
      Val (Some (mkResponse StatusBadRequest (ErrorPair err1 err2)))
    | _ => checkAll txs'
    end
  end.

Definition SendMultipleTransactions (c : appContext (FacadeHandler R))
    (bound : error + list (option Transaction)) : outcome (response R) :=
  match c with
  | NoFacadeKey => Panic
  | NotAFacade => Val (mkResponse StatusInternalServerError (ErrorOf ErrInvalidAppContext))
  | HasFacade ef =>
    match bound with
    | inl e => Val (mkResponse StatusBadRequest (ErrorWith ErrValidation e))
    | inr txs =>
      match checkAll txs with
      | Panic => Panic
      | Val (Some rejected) => Val rejected
      | Val None =>
        match @facadeSendMultipleTransactions R ef (omap id txs) with
        | (_, Some e) =>
          Val (mkResponse StatusInternalServerError (ErrorWith ErrTxGenerationFailed e))
        | (txHashes, None) => Val (mkResponse StatusOK (TxHashesOf txHashes))
        end
      end
    end
  end.

(** Every field of the transaction is hexadecimal. *)
Definition allHex (tx : Transaction) : Prop :=
  checkTransactionFields tx = (None, None).

End Handlers.

End Api.

(** ** The indexer's replies (package [database]) *)

Module Database.

(** Modelled from the spec: the errors of package [database], whose
    declarations are not among the sources. *)
Inductive dbError : Type :=
  | errCannotFindBlockInDb
  | errCannotUnmarshalBlock
  | errCannotGetTxsFromBody.

(** Modelled from the spec: [indexer.Transaction], declared outside the
    sources: the [Hash] field the proxy writes, and the fields decoded from the
    document. *)
Record IndexerTransaction (T : Type) : Type := mkIndexerTransaction {
  Hash : string;
  Decoded : T
}.
Arguments mkIndexerTransaction {T} _ _.
Arguments Hash {T} _.
Arguments Decoded {T} _.

(** Modelled from the spec: the type [object] is declared outside the
    sources; it is taken to be [map[string]interface{}], the type
    [encoding/json] decodes a JSON object into, so that [x.(object)] succeeds
    exactly on the decoded objects. [field m key] is [m[key]]. *)
Definition field (m : gmap string json) (key : string) : json :=
  default JNull (m !! key).

Section Convert.
Context {fmt : Fmt} {B T : Type}.

(** [json.Marshal] followed by [json.Unmarshal] into an [indexer.Block] and
    into an [indexer.Transaction]; [None] when Unmarshal reports an error. *)
Context (unmarshalBlock : json -> option B)
        (unmarshalTransaction : json -> option (IndexerTransaction T)).

(** [(nil, "", err)] is [(None, "", Some err)]. *)
Definition convertObjectToBlock (obj : gmap string json)
    : outcome (option B * string * option dbError) :=
  match field obj "hits" with
  | JObject hits =>
    match field hits "hits" with
    | JArray h1 =>
      match h1 with
      | [] => Val (None, "", Some errCannotFindBlockInDb)
      | first :: _ =>
        match first with
        | JObject hit =>
          let h2 := field hit "_source" in
          let h3 := field hit "_id" in
          let blockHash := Sprint h3 in
          match unmarshalBlock h2 with
          | None => Val (None, "", Some errCannotUnmarshalBlock)
          | Some block => Val (Some block, blockHash, None)
          end
        | _ => Panic
        end
      end
    | _ => Panic
    end
  | _ => Panic
  end.

Fixpoint convertHits (hs : list json) (txs : list (IndexerTransaction T))
    : outcome (list (IndexerTransaction T) * option dbError) :=
  match hs with
  | [] => Val (txs, None)
  | h1 :: hs' =>
    match h1 with
    | JObject hit =>
      let h2 := field hit "_source" in
      match unmarshalTransaction h2 with
      | None => convertHits hs' txs
      | Some tx =>
        let h3 := field hit "_id" in
        let txHash := Sprint h3 in
        convertHits hs' (txs ++ [mkIndexerTransaction txHash (Decoded tx)])
      end
    | _ => Panic
    end
  end.

Definition convertObjectToTransactions (obj : gmap string json)
    : outcome (list (IndexerTransaction T) * option dbError) :=
  match field obj "hits" with
  | JObject hits =>
    match field hits "hits" with
    | JArray hs => convertHits hs []
    | _ => Panic
    end
  | _ => Val ([], Some errCannotGetTxsFromBody)
  end.

(** What one hit contributes to the transactions. *)
Definition hitTransaction (h : json) : option (IndexerTransaction T) :=
  match h with
  | JObject hit =>
    match unmarshalTransaction (field hit "_source") with
    | Some tx => Some (mkIndexerTransaction (Sprint (field hit "_id")) (Decoded tx))
    | None => None
    end
  | _ => None
  end.

(** The rendering of a hit's [_id], and whether its [_source] decodes. *)
Definition hitId (h : json) : string :=
  match h with
  | JObject hit => Sprint (field hit "_id")
  | _ => ""
  end.

Definition isObject (h : json) : Prop :=
  match h with
  | JObject _ => True
  | _ => False
  end.

Definition decodes (h : json) : Prop :=
  match h with
  | JObject hit => is_Some (unmarshalTransaction (field hit "_source"))
  | _ => False
  end.

End Convert.

End Database.

(** ** Test doubles

    Concrete collaborators in the style of the repository's stubs: a codec, a
    two-shard coordinator, an observer inventory and a scripted forwarder. *)

Module Mock.

(** Addresses are "erd1" followed by the characters that stand for the bytes. *)
Definition decode (s : string) : error + list Byte.byte :=
  if String.prefix "erd1" s then
    inr (String.list_byte_of_string
           (String.substring 4 (Nat.sub (String.length s) 4) s))
  else inl (ErrText "invalid bech32 string").

(** Two shards, selected by the lowest bit of the last byte. *)
Definition computeShardId (bytes : list Byte.byte) : error + Z :=
  match last bytes with
  | None => inl (ErrText "bad address")
  | Some b => inr (Z.land (Z.of_N (Byte.to_N b)) 1)
  end.

Definition getObservers (inventory : list Observer) (shard : Z)
    : error + list Observer :=
  match filter (fun o => ShardId o = shard) inventory with
  | [] => inl ErrMissingObserver
  | os => inr os
  end.

(** A scripted answer: status, error, and the JSON document that each typed
    reply struct picks its fields from. *)
Record answer : Type := mkAnswer {
  aCode : Z;
  aErr : option error;
  aAccount : Account;
  aTransaction : ApiTransactionResult;
  aTxHash : string;
  aMultiple : ResponseMultipleTransactions;
  aTxCost : Z
}.

Definition status (c : Z) (e : option error) : answer :=
  {| aCode := c; aErr := e;
     aAccount := mkAccount "" 0 "";
     aTransaction := mkApiTx "" "" "";
     aTxHash := "";
     aMultiple := mkMulti 0 ∅;
     aTxCost := 0 |}.

Definition notFound : answer := status 404 (Some (ErrText "not found")).

Definition okAccount (a : Account) : answer :=
  {| aCode := 200; aErr := None; aAccount := a;
     aTransaction := mkApiTx "" "" ""; aTxHash := "";
     aMultiple := mkMulti 0 ∅; aTxCost := 0 |}.

Definition okTransaction (t : ApiTransactionResult) : answer :=
  {| aCode := 200; aErr := None; aAccount := mkAccount "" 0 "";
     aTransaction := t; aTxHash := "";
     aMultiple := mkMulti 0 ∅; aTxCost := 0 |}.

Definition okMultiple (n : Z) (hs : list (Z * string)) : answer :=
  {| aCode := 200; aErr := None; aAccount := mkAccount "" 0 "";
     aTransaction := mkApiTx "" "" ""; aTxHash := "";
     aMultiple := mkMulti n (list_to_map hs); aTxCost := 0 |}.

Definition decoded (k : respKind) (a : answer) : reply k :=
  mkReply (aCode a) (aErr a)
    (match k return respOf k with
     | ResponseAccount => aAccount a
     | GetTransactionResponse => aTransaction a
     | ResponseTransaction => aTxHash a
     | ResponseMultiple => aMultiple a
     | ResponseTxCost => aTxCost a
     end).

Definition converter : PubkeyConverter := {| Decode := decode |}.

(** A codec that rejects every string. *)
Definition rejecting : PubkeyConverter :=
  {| Decode := fun _ => inl (ErrText "invalid address") |}.

Definition processor (inventory : list Observer)
    (script : list request -> request -> answer) : Processor :=
  {| ComputeShardId := computeShardId;
     GetObservers := getObservers inventory;
     GetAllObservers := inventory;
     CallRest := fun h r k => decoded k (script h r) |}.

Definition isHexDigit (c : Ascii.ascii) : bool :=
  let n := Ascii.N_of_ascii c in
  ((48 <=? n) && (n <=? 57) || (97 <=? n) && (n <=? 102)
   || (65 <=? n) && (n <=? 70))%N.

Fixpoint allHex (s : string) : bool :=
  match s with
  | EmptyString => true
  | String c s' => isHexDigit c && allHex s'
  end.

(** Accepts the even-length hexadecimal strings; the processors discard the
    decoded bytes. *)
Definition hexDecode (s : string) : error + list Byte.byte :=
  if allHex s && Nat.even (String.length s) then inr []
  else inl (ErrText "encoding/hex: invalid input").

Definition runtime : Runtime :=
  {| hexDecodeString := hexDecode;
     rangeMap := fun V _ m => map_to_list m;
     rangeMap_perm := fun V _ m => Permutation_refl (map_to_list m) |}.

(** The address of the observer a request went to. *)
Definition target (r : request) : string :=
  match r with
  | GET a _ => a
  | POST a _ _ => a
  end.

Definition start : state := {| heap := ∅; calls := [] |}.

(** The inventory of the scenarios: A, B, C serve shard 0, X and Y shard 1. *)
Definition obsA : Observer := mkObserver "A" 0.
Definition obsB : Observer := mkObserver "B" 0.
Definition obsC : Observer := mkObserver "C" 0.
Definition obsX : Observer := mkObserver "X" 1.
Definition obsY : Observer := mkObserver "Y" 1.
Definition inventory : list Observer := [obsA; obsB; obsC; obsX; obsY].

(** The same inventory behind a metachain observer. *)
Definition obsM : Observer := mkObserver "M" MetachainShardId.
Definition inventoryM : list Observer := obsM :: inventory.

(** "erd1a0" lives in shard 0, "erd1a1" in shard 1. *)
Definition tx01 : Transaction :=
  mkTransaction 1 "10" "erd1a1" "erd1a0" 1 50000 "" "abcd" 0.

(** Scripts of the forwarder, by the observer that is asked. *)

(** A is down, B accepts, anything else is a server error. *)
Definition failoverScript (_ : list request) (r : request) : answer :=
  if String.eqb (target r) "A" then status 404 (Some (ErrText "down"))
  else if String.eqb (target r) "B" then
    {| aCode := 200; aErr := None; aAccount := mkAccount "erd1a0" 3 "7";
       aTransaction := mkApiTx "" "" ""; aTxHash := "h1";
       aMultiple := mkMulti 0 ∅; aTxCost := 1500 |}
  else status 500 (Some (ErrText "boom")).

(** A fails with 500 "boom", B answers with balance 7. *)
Definition boomScript (_ : list request) (r : request) : answer :=
  if String.eqb (target r) "A" then status 500 (Some (ErrText "boom"))
  else if String.eqb (target r) "B" then okAccount (mkAccount "erd1a0" 3 "7")
  else notFound.

(** Every observer answers 404 with an error. *)
Definition deadScript (_ : list request) (_ : request) : answer := notFound.

(** Every observer answers 404 and the forwarder reports no error. *)
Definition silentScript (_ : list request) (_ : request) : answer :=
  status 404 None.

(** A transaction sent from shard 0 to shard 1: A (source shard) reports it
    pending, X (destination shard) reports it executed. *)
Definition crossShardScript (_ : list request) (r : request) : answer :=
  if String.eqb (target r) "A" then
    okTransaction (mkApiTx "erd1a0" "erd1a1" "pending")
  else if String.eqb (target r) "X" then
    okTransaction (mkApiTx "erd1a0" "erd1a1" "success")
  else notFound.

(** The same, with the destination shard unreachable. *)
Definition sourceOnlyScript (_ : list request) (r : request) : answer :=
  if String.eqb (target r) "A" then
    okTransaction (mkApiTx "erd1a0" "erd1a1" "pending")
  else notFound.

(** The first observer of each shard accepts a batch and reports a hash for
    each of its first two positions. *)
Definition bulkScript (_ : list request) (r : request) : answer :=
  match r with
  | POST a _ (BodyTxs body) =>
    if String.eqb a "A" || String.eqb a "X" then
      okMultiple (Z.of_nat (length body))
        (take (length body) [(0, "h_a"); (1, "h_b")])
    else notFound
  | _ => notFound
  end.

(** Only the observers of shard 1 accept batches. *)
Definition shardOneScript (_ : list request) (r : request) : answer :=
  match r with
  | POST a _ (BodyTxs body) =>
    if String.eqb a "X" then
      okMultiple (Z.of_nat (length body))
        (take (length body) [(0, "h_a"); (1, "h_b")])
    else notFound
  | _ => notFound
  end.

(** "zz" is not an address. *)
Definition txBad : Transaction :=
  mkTransaction 1 "10" "erd1a1" "zz" 1 50000 "" "abcd" 0.

(** A transaction sent from shard 1. *)
Definition tx10 : Transaction :=
  mkTransaction 1 "10" "erd1a0" "erd1a1" 1 50000 "" "abcd" 0.

(** The caller's objects: an invalid transaction followed by a valid one. *)
Definition heapBadGood : gmap loc Transaction :=
  <[0%nat := txBad]> (<[1%nat := tx01]> ∅).

(** The caller's objects: one valid transaction whose Index field holds 7. *)
Definition heapSeven : gmap loc Transaction :=
  <[0%nat := setIndex 7 tx01]> ∅.

(** The caller's objects: senders in shards 0, 1, 0, 1. *)
Definition heapFour : gmap loc Transaction :=
  list_to_map [(0%nat, tx01); (1%nat, tx10); (2%nat, tx01); (3%nat, tx10)].

(** A is down, B holds the transaction (an intra-shard one, executed). *)
Definition hitAtBScript (_ : list request) (r : request) : answer :=
  if String.eqb (target r) "A" then status 404 (Some (ErrText "down"))
  else if String.eqb (target r) "B" then
    okTransaction (mkApiTx "erd1a0" "erd1a0" "success")
  else notFound.

(** A transaction whose signature is not hexadecimal. *)
Definition txBadSignature : Transaction :=
  mkTransaction 1 "10" "erd1a1" "erd1a0" 1 50000 "" "xyz" 0.

(** An inventory that serves shard 1 only. *)
Definition inventoryOne : list Observer := [obsX; obsY].

(** The caller's objects: a single transaction that does not validate. *)
Definition heapBad : gmap loc Transaction := <[0%nat := txBad]> ∅.

(** [fmt.Sprint] on the scalars; the doubles render no array and no object. *)
Definition sprint (j : json) : string :=
  match j with
  | JNull => "<nil>"
  | JBool true => "true"
  | JBool false => "false"
  | JNumber literal => literal
  | JString s => s
  | JArray _ => "[]"
  | JObject _ => "map[]"
  end.

Definition fmt : Fmt := {| Sprint := sprint |}.

Definition generic (script : list request -> request -> genericReply)
    : GenericForwarder :=
  {| CallRestGeneric := script |}.

(** A is down; B answers 200 with an "error" member and no "value"; C holds
    the value. *)
Definition keyScript (_ : list request) (r : request) : genericReply :=
  if String.eqb (target r) "A" then
    mkGenericReply 0 (Some (ErrText "connection refused")) ∅
  else if String.eqb (target r) "B" then
    mkGenericReply 200 None {[ "error" := JString "key not found" ]}
  else mkGenericReply 200 None {[ "value" := JString "0a" ]}.

(** A facade that accepts everything and hands back one hash per
    transaction. *)
Definition facade : Api.FacadeHandler (list string) :=
  {| Api.facadeSendTransaction := fun tx => (Signature tx, None);
     Api.facadeSendUserFunds := fun _ _ => None;
     Api.facadeSendMultipleTransactions :=
       fun txs => (Signature <$> txs, None) |}.

(** Transactions as the API takes them, with hexadecimal addresses. *)
Definition txHex : Transaction :=
  mkTransaction 1 "10" "0b" "0a" 1 50000 "" "abcd" 0.

Definition txHexBadReceiver : Transaction :=
  mkTransaction 1 "10" "erd1a1" "0a" 1 50000 "" "abcd" 0.

(** Decoding an indexed transaction: [null] leaves the struct as it is, an
    object fills the nonce, anything else is an error. *)
Definition unmarshalTransaction (j : json)
    : option (Database.IndexerTransaction string) :=
  match j with
  | JNull => Some (Database.mkIndexerTransaction "" "")
  | JObject m =>
    match m !! "nonce" with
    | Some (JNumber n) => Some (Database.mkIndexerTransaction "" n)
    | Some _ => None
    | None => Some (Database.mkIndexerTransaction "" "")
    end
  | _ => None
  end.

Definition unmarshalBlock (j : json) : option string :=
  match j with
  | JNull => Some ""
  | JObject m =>
    match m !! "nonce" with
    | Some (JNumber n) => Some n
    | Some _ => None
    | None => Some ""
    end
  | _ => None
  end.

Definition hit (id : string) (source : json) : json :=
  JObject (<[ "_id" := JString id ]> {[ "_source" := source ]}).

Definition source (nonce : string) : json :=
  JObject {[ "nonce" := JNumber nonce ]}.

(** A search result with three hits, the second of which does not decode. *)
Definition threeHits : list json :=
  [hit "h1" (source "1"); hit "h2" (JString "garbled"); hit "h3" (source "3")].

Definition searchResult (hs : list json) : gmap string json :=
  {[ "hits" := JObject {[ "hits" := JArray hs ]} ]}.

End Mock.

(** ** Basic facts *)

Lemma visited_cons mk o os h : visited mk (o :: os) h = visited mk os (mk o :: h).
Proof. unfold visited. simpl. by rewrite <- app_assoc. Qed.

Lemma visited_app mk os1 os2 h :
  visited mk (os1 ++ os2) h = visited mk os2 (visited mk os1 h).
Proof.
  revert h. induction os1 as [|o os1 IH]; intros h; [done|].
  rewrite <- app_comm_cons, !visited_cons. apply IH.
Qed.

Lemma logged_nil mk s : logged mk [] s = s.
Proof. by destruct s. Qed.

Lemma logged_cons mk o os s :
  logged mk (o :: os) s = logged mk os {| heap := heap s; calls := mk o :: calls s |}.
Proof. unfold logged. simpl. by rewrite visited_cons. Qed.

Lemma logged_app mk os1 os2 s :
  logged mk (os1 ++ os2) s = logged mk os2 (logged mk os1 s).
Proof. unfold logged. simpl. by rewrite visited_app. Qed.

Lemma isSkip_not_success {k} (r : reply k) : isSkip r = true -> isSuccess r = false.
Proof.
  unfold isSkip, isSuccess, StatusOK, StatusNotFound, StatusRequestTimeout.
  intros H. apply orb_true_iff in H as [H|H]; apply Z.eqb_eq in H; rewrite H; done.
Qed.

(** ** SendTransaction *)

Section SendTransactionFacts.
Context {pubKeyConverter : PubkeyConverter} {proc : Processor} {rt : Runtime}.

Lemma sendTransactionLoop_skip tx pre rest s :
  allAnswer ResponseTransaction isSkip (sendRequest tx) (calls s) pre = true ->
  sendTransactionLoop tx (pre ++ rest) s
  = sendTransactionLoop tx rest (logged (sendRequest tx) pre s).
Proof.
  revert s. induction pre as [|o pre IH]; intros s H.
  - by rewrite logged_nil.
  - simpl in H. apply andb_true_iff in H as [Ho Hpre].
    rewrite logged_cons. rewrite <- IH by exact Hpre.
    simpl. unfold bind, CallPostRestEndPoint, call.
    fold (sendRequest tx o).
    pose proof (isSkip_not_success _ Ho) as Hs. unfold isSuccess in Hs.
    rewrite Hs. unfold isSkip in Ho. by rewrite Ho.
Qed.

(** C3. Once a transaction has passed field validation and the observers of
    its sender's shard are known, SendTransaction POSTs it to
    [/transaction/send] on those observers in inventory order: observers
    answering 404 or 408 are passed over; the first answer with code 200 and
    no error ends the call with (200, txHash, nil); the first answer of any
    other kind ends it with that code and error; in both cases no later
    observer is called. When every observer answers 404 or 408 the result is
    (500, "", SendingRequest) and each observer was called once. *)
Theorem SendTransaction_three_outcomes tx senderBuff shardID observers s :
  checkTransactionFields tx = None ->
  Decode (Sender tx) = inr senderBuff ->
  ComputeShardId senderBuff = inr shardID ->
  GetObservers shardID = inr observers ->
  (forall pre o post,
     observers = pre ++ o :: post ->
     allAnswer ResponseTransaction isSkip (sendRequest tx) (calls s) pre = true ->
     let r := CallRest (visited (sendRequest tx) pre (calls s)) (sendRequest tx o)
                ResponseTransaction in
     (isSuccess r = true ->
      SendTransaction tx s
      = (Val (StatusOK, out r, None), logged (sendRequest tx) (pre ++ [o]) s))
     /\
     (isFatal r = true ->
      SendTransaction tx s
      = (Val (code r, "", err r), logged (sendRequest tx) (pre ++ [o]) s)))
  /\
  (allAnswer ResponseTransaction isSkip (sendRequest tx) (calls s) observers = true ->
   SendTransaction tx s
   = (Val (StatusInternalServerError, "", Some ErrSendingRequest),
      logged (sendRequest tx) observers s)).
Proof.
  intros Hchk Hdec Hshard Hobs.
  unfold SendTransaction. rewrite Hchk, Hdec, Hshard, Hobs.
  split.
  - intros pre o post -> Hpre.
    rewrite sendTransactionLoop_skip by exact Hpre.
    rewrite logged_app. simpl.
    unfold bind, CallPostRestEndPoint, call. simpl.
    fold (sendRequest tx o).
    set (r := CallRest _ (sendRequest tx o) ResponseTransaction).
    split.
    + intros Hs. unfold isSuccess in Hs. rewrite Hs.
      apply andb_true_iff in Hs as [Hc _]. apply Z.eqb_eq in Hc.
      unfold ret. by rewrite Hc.
    + intros Hf. unfold isFatal in Hf. apply andb_true_iff in Hf as [Hns Hnk].
      apply negb_true_iff in Hns, Hnk. unfold isSuccess in Hns. unfold isSkip in Hnk.
      by rewrite Hns, Hnk.
  - intros Hall.
    rewrite <- (app_nil_r observers) at 1.
    rewrite sendTransactionLoop_skip by exact Hall. reflexivity.
Qed.

End SendTransactionFacts.

(** C3 on the inventory [A, B, C]: A answers 404, B accepts with hash "h1";
    the result is (200, "h1", nil) and C is not called. *)
Lemma SendTransaction_three_outcomes_witness :
  @SendTransaction Mock.converter
    (Mock.processor Mock.inventory Mock.failoverScript) Mock.runtime
    Mock.tx01 Mock.start
  = (Val (200, "h1", None),
     {| heap := ∅;
        calls := [sendRequest Mock.tx01 Mock.obsB; sendRequest Mock.tx01 Mock.obsA] |}).
Proof.
  pose proof (@SendTransaction_three_outcomes Mock.converter
                (Mock.processor Mock.inventory Mock.failoverScript) Mock.runtime
                Mock.tx01 _ 0 [Mock.obsA; Mock.obsB; Mock.obsC] Mock.start
                eq_refl eq_refl eq_refl eq_refl) as [H _].
  exact (proj1 (H [Mock.obsA] Mock.obsB [Mock.obsC] eq_refl eq_refl) eq_refl).
Defined.

(** ** TransactionCostRequest *)

Section TransactionCostFacts.
Context {pubKeyConverter : PubkeyConverter} {proc : Processor} {rt : Runtime}.

Lemma transactionCostLoop_nonMetachain tx os s :
  transactionCostLoop tx os s = transactionCostLoop tx (nonMetachain os) s.
Proof.
  revert s. induction os as [|o os IH]; intros s; [done|].
  unfold nonMetachain. rewrite filter_cons. simpl.
  destruct (Z.eqb_spec (ShardId o) MetachainShardId) as [E|E].
  - rewrite decide_False by (intros N; by apply N). apply IH.
  - rewrite decide_True by done. simpl.
    destruct (Z.eqb_spec (ShardId o) MetachainShardId); [done|].
    unfold bind, CallPostRestEndPoint, call.
    repeat (case_match; try done); apply IH.
Qed.

Lemma transactionCostLoop_skip tx pre rest s :
  Forall (fun o => ShardId o ≠ MetachainShardId) pre ->
  allAnswer ResponseTxCost isSkip (costRequest tx) (calls s) pre = true ->
  transactionCostLoop tx (pre ++ rest) s
  = transactionCostLoop tx rest (logged (costRequest tx) pre s).
Proof.
  revert s. induction pre as [|o pre IH]; intros s Hm H.
  - by rewrite logged_nil.
  - simpl in H. apply andb_true_iff in H as [Ho Hpre].
    apply Forall_cons in Hm as [Hmo Hm].
    rewrite logged_cons. rewrite <- IH by done.
    simpl. destruct (Z.eqb_spec (ShardId o) MetachainShardId); [done|].
    unfold bind, CallPostRestEndPoint, call.
    fold (costRequest tx o).
    pose proof (isSkip_not_success _ Ho) as Hs. unfold isSuccess in Hs.
    rewrite Hs. unfold isSkip in Ho. by rewrite Ho.
Qed.

Lemma transactionCostLoop_calls tx os s r :
  r ∈ calls (snd (transactionCostLoop tx os s)) ->
  r ∈ calls s \/
  exists o, o ∈ os /\ ShardId o ≠ MetachainShardId /\ r = costRequest tx o.
Proof.
  revert s. induction os as [|o os IH]; intros s; simpl; [by left|].
  destruct (Z.eqb_spec (ShardId o) MetachainShardId) as [E|E].
  - intros H. apply IH in H as [H|(o' & Ho' & Hm & ->)]; [by left|].
    right. exists o'. split; [by right|done].
  - unfold bind, CallPostRestEndPoint, call. fold (costRequest tx o).
    assert (r ∈ costRequest tx o :: calls s ->
            r ∈ calls s \/ exists o', o' ∈ o :: os /\
              ShardId o' ≠ MetachainShardId /\ r = costRequest tx o') as Hhere.
    { intros [->|H]%elem_of_cons; [|by left].
      right. exists o. split; [by left|done]. }
    repeat case_match; simpl; try exact Hhere.
    intros Hr. apply IH in Hr as [Hr|(o' & Ho' & Hm & ->)]; [by apply Hhere|].
    right. exists o'. split; [by right|done].
Qed.

(** C7. TransactionCostRequest never POSTs to an observer whose ShardId is the
    metachain id: every call it logs is a POST to [/transaction/cost] on a
    non-metachain observer of GetAllObservers(). For a transaction that
    validates, the remaining observers are asked in order: answers 404 or 408
    are passed over, the first answer with code 200 and no error gives the
    cost, the first answer of any other kind ends the call with its error, and
    when all are passed over the error is SendingRequest. *)
Theorem TransactionCostRequest_three_outcomes tx s :
  (forall r, r ∈ calls (snd (TransactionCostRequest tx s)) ->
     r ∈ calls s \/
     exists o, o ∈ GetAllObservers /\ ShardId o ≠ MetachainShardId /\
               r = costRequest tx o)
  /\
  (checkTransactionFields tx = None ->
   (forall pre o post,
      nonMetachain GetAllObservers = pre ++ o :: post ->
      allAnswer ResponseTxCost isSkip (costRequest tx) (calls s) pre = true ->
      let r := CallRest (visited (costRequest tx) pre (calls s)) (costRequest tx o)
                 ResponseTxCost in
      (isSuccess r = true ->
       TransactionCostRequest tx s
       = (Val (formatInt (toInt (out r)), None),
          logged (costRequest tx) (pre ++ [o]) s))
      /\
      (isFatal r = true ->
       TransactionCostRequest tx s
       = (Val ("", err r), logged (costRequest tx) (pre ++ [o]) s)))
   /\
   (allAnswer ResponseTxCost isSkip (costRequest tx) (calls s)
      (nonMetachain GetAllObservers) = true ->
    TransactionCostRequest tx s
    = (Val ("", Some ErrSendingRequest),
       logged (costRequest tx) (nonMetachain GetAllObservers) s))).
Proof.
  split.
  - intros r. unfold TransactionCostRequest.
    destruct (checkTransactionFields tx); [by left|].
    apply transactionCostLoop_calls.
  - intros Hchk. unfold TransactionCostRequest. rewrite Hchk.
    rewrite transactionCostLoop_nonMetachain.
    assert (Forall (fun o => ShardId o ≠ MetachainShardId)
              (nonMetachain GetAllObservers)) as Hall.
    { apply Forall_forall. intros o Ho.
      by apply list_elem_of_filter in Ho as [Ho _]. }
    split.
    + intros pre o post Heq Hpre. rewrite Heq in Hall |- *.
      apply Forall_app in Hall as [Hpm Hom]. apply Forall_cons in Hom as [Hom _].
      rewrite transactionCostLoop_skip by done.
      rewrite logged_app. simpl.
      destruct (Z.eqb_spec (ShardId o) MetachainShardId); [done|].
      unfold bind, CallPostRestEndPoint, call. simpl.
      fold (costRequest tx o).
      set (r := CallRest _ (costRequest tx o) ResponseTxCost).
      split.
      * intros Hs. unfold isSuccess in Hs. by rewrite Hs.
      * intros Hf. unfold isFatal in Hf. apply andb_true_iff in Hf as [Hns Hnk].
        apply negb_true_iff in Hns, Hnk. unfold isSuccess in Hns.
        unfold isSkip in Hnk. by rewrite Hns, Hnk.
    + intros Hskip.
      rewrite <- (app_nil_r (nonMetachain GetAllObservers)) at 1.
      by rewrite transactionCostLoop_skip.
Qed.

End TransactionCostFacts.

(** C7 on an inventory that starts with a metachain observer M: M is not
    asked, A answers 404, B answers 200 with cost 1500. *)
Lemma TransactionCostRequest_three_outcomes_witness :
  @TransactionCostRequest Mock.converter
    (Mock.processor Mock.inventoryM Mock.failoverScript) Mock.runtime
    Mock.tx01 Mock.start
  = (Val ("1500", None),
     {| heap := ∅;
        calls := [costRequest Mock.tx01 Mock.obsB; costRequest Mock.tx01 Mock.obsA] |}).
Proof.
  pose proof (proj2 (@TransactionCostRequest_three_outcomes Mock.converter
                (Mock.processor Mock.inventoryM Mock.failoverScript) Mock.runtime
                Mock.tx01 Mock.start) eq_refl) as [H _].
  exact (proj1 (H [Mock.obsA] Mock.obsB [Mock.obsC; Mock.obsX; Mock.obsY]
                  eq_refl eq_refl) eq_refl).
Defined.

(** ** GetAccount *)

Section GetAccountFacts.
Context {pubKeyConverter : PubkeyConverter} {proc : Processor}.

Lemma getAccountLoop_skip address pre rest s :
  allAnswer ResponseAccount hasError (accountRequest address) (calls s) pre = true ->
  getAccountLoop address (pre ++ rest) s
  = getAccountLoop address rest (logged (accountRequest address) pre s).
Proof.
  revert s. induction pre as [|o pre IH]; intros s H.
  - by rewrite logged_nil.
  - simpl in H. apply andb_true_iff in H as [Ho Hpre].
    rewrite logged_cons. rewrite <- IH by exact Hpre.
    simpl. unfold bind, CallGetRestEndPoint, call.
    fold (accountRequest address o).
    unfold hasError in Ho. apply negb_true_iff in Ho. by rewrite Ho.
Qed.

(** C4, amended. GetAccount drops the status code of every answer:
    an observer whose call fails with an error (HTTP 500 with a message
    included) is logged and passed over, and the next observer of the shard is
    asked. The first answer without an error ends the call with that account
    and a nil error; when every observer answers with an error the result is
    ErrSendingRequest, and neither the code nor the message of any observer
    reaches the caller. *)
Theorem GetAccount_skips_every_error address observers s :
  getObserversForAddress address = inr observers ->
  (forall pre o post,
     observers = pre ++ o :: post ->
     allAnswer ResponseAccount hasError (accountRequest address) (calls s) pre = true ->
     let r := CallRest (visited (accountRequest address) pre (calls s))
                (accountRequest address o) ResponseAccount in
     err r = None ->
     GetAccount address s
     = (Val (Some (out r), None), logged (accountRequest address) (pre ++ [o]) s))
  /\
  (allAnswer ResponseAccount hasError (accountRequest address) (calls s) observers
   = true ->
   GetAccount address s
   = (Val (None, Some ErrSendingRequest), logged (accountRequest address) observers s)).
Proof.
  intros Hobs. unfold GetAccount. rewrite Hobs. split.
  - intros pre o post -> Hpre.
    rewrite getAccountLoop_skip by exact Hpre.
    rewrite logged_app. simpl.
    unfold bind, CallGetRestEndPoint, call. simpl.
    fold (accountRequest address o).
    set (r := CallRest _ (accountRequest address o) ResponseAccount).
    intros Hr. by rewrite Hr.
  - intros Hall.
    rewrite <- (app_nil_r observers) at 1.
    by rewrite getAccountLoop_skip.
Qed.

End GetAccountFacts.

(** C4 on the inventory [A, B, C]: A fails with 500 "boom", B answers. *)
Lemma GetAccount_skips_every_error_witness :
  @GetAccount Mock.converter (Mock.processor Mock.inventory Mock.boomScript)
    "erd1a0" Mock.start
  = (Val (Some (mkAccount "erd1a0" 3 "7"), None),
     {| heap := ∅;
        calls := [accountRequest "erd1a0" Mock.obsB;
                  accountRequest "erd1a0" Mock.obsA] |}).
Proof.
  pose proof (@GetAccount_skips_every_error Mock.converter
                (Mock.processor Mock.inventory Mock.boomScript)
                "erd1a0" [Mock.obsA; Mock.obsB; Mock.obsC] Mock.start eq_refl)
    as [H _].
  exact (H [Mock.obsA] Mock.obsB [Mock.obsC] eq_refl eq_refl eq_refl).
Defined.

(** The failover scenario of the design: A is down, B answers with balance
    "7", C is not called. *)
Example GetAccount_failover :
  @GetAccount Mock.converter (Mock.processor Mock.inventory Mock.failoverScript)
    "erd1a0" Mock.start
  = (Val (Some (mkAccount "erd1a0" 3 "7"), None),
     logged (accountRequest "erd1a0") [Mock.obsA; Mock.obsB] Mock.start).
Proof. reflexivity. Qed.

(** C4 as stated fails: the shard of "erd1a0" has the
    observers [A, B, C], A answers 500 "boom", and GetAccount goes on to call
    B and returns B's account with a nil error. *)
Lemma GetAccount_fatal_counterexample :
  let proc := Mock.processor Mock.inventory Mock.boomScript in
  let run := @GetAccount Mock.converter proc "erd1a0" Mock.start in
  @getObserversForAddress Mock.converter proc "erd1a0"
  = inr [Mock.obsA; Mock.obsB; Mock.obsC]
  /\ @CallRest proc [] (accountRequest "erd1a0" Mock.obsA) ResponseAccount
     = @mkReply ResponseAccount 500 (Some (ErrText "boom")) (mkAccount "" 0 "")
  /\ fst run = Val (Some (mkAccount "erd1a0" 3 "7"), None)
  /\ accountRequest "erd1a0" Mock.obsB ∈ calls (snd run)
  /\ ~ (fst run = Val (None, Some (ErrText "boom"))
        /\ calls (snd run) = [accountRequest "erd1a0" Mock.obsA]).
Proof.
  cbv zeta. repeat split.
  - vm_compute. apply list_elem_of_here.
  - intros [H _]. vm_compute in H. discriminate H.
Qed.

(** ** GetTransaction *)

Section GetTransactionFacts.
Context {proc : Processor}.

Lemma getTransactionLoop_miss txHash pre rest errv s :
  allAnswer GetTransactionResponse isMiss (txRequest txHash) (calls s) pre = true ->
  getTransactionLoop txHash (pre ++ rest) errv s
  = getTransactionLoop txHash rest
      (lastError GetTransactionResponse (txRequest txHash) (calls s) pre errv)
      (logged (txRequest txHash) pre s).
Proof.
  revert errv s. induction pre as [|o pre IH]; intros errv s H.
  - by rewrite logged_nil.
  - simpl in H. apply andb_true_iff in H as [Ho Hpre].
    rewrite logged_cons. simpl.
    unfold bind, CallGetRestEndPoint, call.
    fold (txRequest txHash o).
    unfold isMiss, isHit in Ho. apply negb_true_iff in Ho.
    destruct (code _ =? StatusOK); simpl.
    + rewrite andb_true_r in Ho. rewrite Ho. simpl. by rewrite IH.
    + by rewrite IH.
Qed.

(** X1. What GetTransaction returns: the transaction of the first observer that
    answers with code 200 and no error, no later observer being asked; and,
    when no observer does, a nil transaction with the error of the last call,
    whatever it is. *)
Lemma GetTransaction_outcomes txHash s :
  (forall pre o post,
     GetAllObservers = pre ++ o :: post ->
     allAnswer GetTransactionResponse isMiss (txRequest txHash) (calls s) pre = true ->
     isHit (CallRest (visited (txRequest txHash) pre (calls s)) (txRequest txHash o)
              GetTransactionResponse) = true ->
     GetTransaction txHash s
     = (Val (Some (out (CallRest (visited (txRequest txHash) pre (calls s))
                          (txRequest txHash o) GetTransactionResponse)), None),
        logged (txRequest txHash) (pre ++ [o]) s))
  /\ (allAnswer GetTransactionResponse isMiss (txRequest txHash) (calls s)
        GetAllObservers = true ->
      GetTransaction txHash s
      = (Val (None, lastError GetTransactionResponse (txRequest txHash) (calls s)
                      GetAllObservers None),
         logged (txRequest txHash) GetAllObservers s)).
Proof.
  unfold GetTransaction. split.
  - intros pre o post -> Hpre Ho.
    rewrite getTransactionLoop_miss by exact Hpre.
    rewrite logged_app. simpl.
    unfold bind, CallGetRestEndPoint, call. simpl.
    fold (txRequest txHash o).
    unfold isHit in Ho. apply andb_true_iff in Ho as [He Hc].
    by rewrite Hc, He.
  - intros Hall. rewrite <- (app_nil_r GetAllObservers) at 1.
    by rewrite getTransactionLoop_miss.
Qed.

End GetTransactionFacts.

(** C8 fails on the code: when the observers are exhausted GetTransaction
    returns the error of the last call, which is nil when there was no call
    (empty inventory) and when the last observer answered a non-200 code
    without an error. The sibling GetTransactionByHashAndSenderAddress
    returns ErrTransactionNotFound in the same situations. *)
Lemma GetTransaction_exhausted_nil_error :
  @GetTransaction (Mock.processor [] Mock.deadScript) "abcd" Mock.start
  = (Val (None, None), Mock.start)
  /\ @GetTransaction (Mock.processor Mock.inventory Mock.silentScript) "abcd"
       Mock.start
     = (Val (None, None),
        logged (txRequest "abcd") Mock.inventory Mock.start)
  /\ fst (@GetTransactionByHashAndSenderAddress Mock.converter
            (Mock.processor Mock.inventory Mock.silentScript) "abcd" "erd1a0"
            Mock.start)
     = Val (None, StatusNotFound, Some ErrTransactionNotFound).
Proof. repeat split. Qed.

(** ** Shard of an address *)

Section ShardFacts.
Context {pubKeyConverter : PubkeyConverter} {proc : Processor}.

(** C9. Whatever the address codec and the shard coordinator do, the sender
    string "4294967295" (the metachain id in decimal) resolves to the
    metachain shard with a nil error: the codec is not consulted. Hence
    GetTransactionStatus with that sender hint and
    GetTransactionByHashAndSenderAddress go straight to the observers of the
    metachain shard and do not fail with ErrInvalidSenderAddress at this
    step. *)
Theorem getShardByAddress_metachain :
  formatInt MetachainShardId = "4294967295"
  /\ getShardByAddress "4294967295" = (MetachainShardId, None)
  /\ (forall txHash s,
        GetTransactionStatus txHash "4294967295" s
        = match GetObservers MetachainShardId with
          | inl e => (Val (UnknownStatusTx, Some e), s)
          | inr observers =>
            txStatusWithSenderLoop txHash MetachainShardId observers s
          end)
  /\ (forall txHash s,
        GetTransactionByHashAndSenderAddress txHash "4294967295" s
        = match GetObservers MetachainShardId with
          | inl e => (Val (None, StatusInternalServerError, Some e), s)
          | inr observers => getTransactionBySenderLoop txHash observers s
          end).
Proof.
  assert (getShardByAddress "4294967295" = (MetachainShardId, None)) as Hm
    by reflexivity.
  split; [reflexivity|]. split; [exact Hm|]. split.
  - intros txHash s. unfold GetTransactionStatus, getTxStatusWithSenderAddr.
    rewrite Hm. simpl. by destruct (GetObservers MetachainShardId).
  - intros txHash s. unfold GetTransactionByHashAndSenderAddress.
    rewrite Hm. by destruct (GetObservers MetachainShardId).
Qed.

End ShardFacts.

(** With a codec that rejects every string, the metachain id still resolves,
    while an ordinary address does not. *)
Example getShardByAddress_rejecting_codec :
  let proc := Mock.processor Mock.inventory Mock.deadScript in
  @getShardByAddress Mock.rejecting proc "4294967295" = (MetachainShardId, None)
  /\ @getShardByAddress Mock.rejecting proc "erd1a0"
     = (0, Some (ErrText "invalid address")).
Proof. split; reflexivity. Qed.

(** ** GetTransactionStatus *)

Section TransactionStatusFacts.
Context {pubKeyConverter : PubkeyConverter} {proc : Processor}.

Lemma getTxFromObserver_run o txHash s :
  let r := CallRest (calls s) (txRequest txHash o) GetTransactionResponse in
  getTxFromObserver o txHash s
  = (Val (if isHit r then Some (out r) else None),
     {| heap := heap s; calls := txRequest txHash o :: calls s |}).
Proof.
  intros r. unfold getTxFromObserver, bind, CallGetRestEndPoint, call.
  fold (txRequest txHash o). fold r. unfold isHit.
  destruct (isNil (err r)); simpl; [|done].
  by destruct (code r =? StatusOK).
Qed.

Lemma destShardLoop_miss txHash pre rest s :
  allAnswer GetTransactionResponse isMiss (txRequest txHash) (calls s) pre = true ->
  destShardLoop txHash (pre ++ rest) s
  = destShardLoop txHash rest (logged (txRequest txHash) pre s).
Proof.
  revert s. induction pre as [|o pre IH]; intros s H.
  - by rewrite logged_nil.
  - simpl in H. apply andb_true_iff in H as [Ho Hpre].
    rewrite logged_cons. rewrite <- IH by exact Hpre.
    simpl. unfold bind, CallGetRestEndPoint, call.
    fold (txRequest txHash o).
    unfold isMiss, isHit in Ho. apply negb_true_iff in Ho.
    destruct (isNil (err _)); simpl in *; [|done]. by rewrite Ho.
Qed.

Lemma destShardLoop_hit txHash x rest s :
  let r := CallRest (calls s) (txRequest txHash x) GetTransactionResponse in
  isHit r = true ->
  destShardLoop txHash (x :: rest) s
  = (Val (apiStatus (out r), true), logged (txRequest txHash) [x] s).
Proof.
  intros r Hr. simpl. unfold bind, CallGetRestEndPoint, call.
  fold (txRequest txHash x). fold r.
  unfold isHit in Hr. apply andb_true_iff in Hr as [-> ->]. done.
Qed.

Lemma txStatusWithSenderLoop_miss txHash sndShardID pre rest s :
  allAnswer GetTransactionResponse isMiss (txRequest txHash) (calls s) pre = true ->
  txStatusWithSenderLoop txHash sndShardID (pre ++ rest) s
  = txStatusWithSenderLoop txHash sndShardID rest (logged (txRequest txHash) pre s).
Proof.
  revert s. induction pre as [|o pre IH]; intros s H.
  - by rewrite logged_nil.
  - simpl in H. apply andb_true_iff in H as [Ho Hpre].
    rewrite logged_cons. rewrite <- IH by exact Hpre.
    simpl. unfold bind. rewrite getTxFromObserver_run.
    unfold isMiss in Ho. apply negb_true_iff in Ho. by rewrite Ho.
Qed.

Lemma transactionStatusLoop_miss txHash pre rest s :
  allAnswer GetTransactionResponse isMiss (txRequest txHash) (calls s) pre = true ->
  transactionStatusLoop txHash (pre ++ rest) s
  = transactionStatusLoop txHash rest (logged (txRequest txHash) pre s).
Proof.
  revert s. induction pre as [|o pre IH]; intros s H.
  - by rewrite logged_nil.
  - simpl in H. apply andb_true_iff in H as [Ho Hpre].
    rewrite logged_cons. rewrite <- IH by exact Hpre.
    simpl. unfold bind. rewrite getTxFromObserver_run.
    unfold isMiss in Ho. apply negb_true_iff in Ho. by rewrite Ho.
Qed.

(** C2, amended. When the candidate list of a GetTransactionStatus
    call is obtained and no candidate answers GET /transaction/{hash} with
    code 200 and a nil error, the result is ("unknown", TransactionNotFound)
    and every candidate was asked once. With a sender hint whose shard cannot
    be resolved the result is ("unknown", InvalidSenderAddress), and when
    GetObservers fails for the hinted shard it is "unknown" with that
    error; no observer is asked in these two cases. *)
Theorem GetTransactionStatus_unknown txHash sender s :
  (forall candidates,
     statusCandidates sender candidates ->
     allAnswer GetTransactionResponse isMiss (txRequest txHash) (calls s) candidates
     = true ->
     GetTransactionStatus txHash sender s
     = (Val (UnknownStatusTx, Some ErrTransactionNotFound),
        logged (txRequest txHash) candidates s))
  /\ (forall z e,
        sender ≠ "" -> getShardByAddress sender = (z, Some e) ->
        GetTransactionStatus txHash sender s
        = (Val (UnknownStatusTx, Some ErrInvalidSenderAddress), s))
  /\ (forall sndShardID e,
        sender ≠ "" -> getShardByAddress sender = (sndShardID, None) ->
        GetObservers sndShardID = inl e ->
        GetTransactionStatus txHash sender s = (Val (UnknownStatusTx, Some e), s)).
Proof.
  unfold GetTransactionStatus, getTxStatusWithSenderAddr.
  split; [|split].
  - intros candidates [[-> ->]|(Hne & sh & Hsh & Hobs)] Hall.
    + simpl. rewrite <- (app_nil_r GetAllObservers) at 1.
      by rewrite transactionStatusLoop_miss.
    + apply String.eqb_neq in Hne. rewrite Hne, Hsh, Hobs. simpl.
      rewrite <- (app_nil_r candidates) at 1.
      by rewrite txStatusWithSenderLoop_miss.
  - intros z e Hne Hsh. apply String.eqb_neq in Hne. by rewrite Hne, Hsh.
  - intros sh e Hne Hsh Hobs. apply String.eqb_neq in Hne.
    by rewrite Hne, Hsh, Hobs.
Qed.

End TransactionStatusFacts.

(** C2 when every observer answers 404, without and with a sender hint. *)
Lemma GetTransactionStatus_unknown_witness :
  @GetTransactionStatus Mock.converter
    (Mock.processor Mock.inventory Mock.deadScript) "abcd" "" Mock.start
  = (Val ("unknown", Some ErrTransactionNotFound),
     logged (txRequest "abcd") Mock.inventory Mock.start)
  /\ @GetTransactionStatus Mock.converter
       (Mock.processor Mock.inventory Mock.deadScript) "abcd" "erd1a1" Mock.start
     = (Val ("unknown", Some ErrTransactionNotFound),
        logged (txRequest "abcd") [Mock.obsX; Mock.obsY] Mock.start).
Proof.
  split.
  - apply (proj1 (@GetTransactionStatus_unknown Mock.converter
                    (Mock.processor Mock.inventory Mock.deadScript)
                    "abcd" "" Mock.start)); [|reflexivity].
    left. split; reflexivity.
  - apply (proj1 (@GetTransactionStatus_unknown Mock.converter
                    (Mock.processor Mock.inventory Mock.deadScript)
                    "abcd" "erd1a1" Mock.start)); [|reflexivity].
    right. split; [discriminate|]. exists 1. split; reflexivity.
Defined.

(** C2 as stated fails: no observer ever answers with
    code 200 and a nil error, yet with the sender hint "garbage", which the
    codec rejects, the error returned with "unknown" is InvalidSenderAddress
    and not TransactionNotFound. *)
Lemma GetTransactionStatus_unknown_counterexample :
  let proc := Mock.processor Mock.inventory Mock.deadScript in
  (forall h r, isHit (@CallRest proc h r GetTransactionResponse) = false)
  /\ @GetTransactionStatus Mock.converter proc "abcd" "garbage" Mock.start
     = (Val ("unknown", Some ErrInvalidSenderAddress), Mock.start)
  /\ fst (@GetTransactionStatus Mock.converter proc "abcd" "garbage" Mock.start)
     ≠ Val (UnknownStatusTx, Some ErrTransactionNotFound).
Proof.
  cbv zeta. split; [reflexivity|]. split; [reflexivity|].
  intros H. vm_compute in H. discriminate H.
Qed.

Section DestinationOverrideFacts.
Context {pubKeyConverter : PubkeyConverter} {proc : Processor}.

Lemma txStatusWithSenderLoop_hit txHash sndShardID o post s :
  let r := CallRest (calls s) (txRequest txHash o) GetTransactionResponse in
  isHit r = true ->
  fst (getShardByAddress (apiReceiver (out r))) ≠ sndShardID ->
  txStatusWithSenderLoop txHash sndShardID (o :: post) s
  = override txHash (fst (getShardByAddress (apiReceiver (out r))))
      (apiStatus (out r)) (logged (txRequest txHash) [o] s).
Proof.
  intros r Hr Hne. simpl. unfold bind at 1. rewrite getTxFromObserver_run.
  fold r. rewrite Hr. apply Z.eqb_neq in Hne. rewrite Hne. reflexivity.
Qed.

Lemma transactionStatusLoop_hit txHash o post s :
  let r := CallRest (calls s) (txRequest txHash o) GetTransactionResponse in
  isHit r = true ->
  ShardId o = fst (getShardByAddress (apiSender (out r))) ->
  fst (getShardByAddress (apiReceiver (out r))) ≠ ShardId o ->
  transactionStatusLoop txHash (o :: post) s
  = override txHash (fst (getShardByAddress (apiReceiver (out r))))
      (apiStatus (out r)) (logged (txRequest txHash) [o] s).
Proof.
  intros r Hr Hsrc Hne. simpl. unfold bind at 1. rewrite getTxFromObserver_run.
  fold r. rewrite Hr. rewrite <- Hsrc.
  assert (ShardId o ≠ fst (getShardByAddress (apiReceiver (out r)))) as Hne'
    by (intros E; by apply Hne).
  apply Z.eqb_neq in Hne, Hne'. rewrite Hne, Hne'. reflexivity.
Qed.

Lemma override_hit txHash rcvShardID sourceStatus dst dpre x dpost s :
  GetObservers rcvShardID = inr dst ->
  dst = dpre ++ x :: dpost ->
  allAnswer GetTransactionResponse isMiss (txRequest txHash) (calls s) dpre = true ->
  isHit (CallRest (visited (txRequest txHash) dpre (calls s)) (txRequest txHash x)
           GetTransactionResponse) = true ->
  override txHash rcvShardID sourceStatus s
  = (Val (apiStatus
            (out (CallRest (visited (txRequest txHash) dpre (calls s))
                    (txRequest txHash x) GetTransactionResponse)), None),
     logged (txRequest txHash) (dpre ++ [x]) s).
Proof.
  intros Hobs -> Hpre Hx.
  unfold override, getTxStatusFromDestShard, bind. rewrite Hobs.
  rewrite destShardLoop_miss by exact Hpre.
  rewrite destShardLoop_hit by exact Hx. simpl.
  by rewrite logged_app.
Qed.

Lemma override_exhausted txHash rcvShardID sourceStatus dst s :
  GetObservers rcvShardID = inr dst ->
  allAnswer GetTransactionResponse isMiss (txRequest txHash) (calls s) dst = true ->
  override txHash rcvShardID sourceStatus s
  = (Val (sourceStatus, None), logged (txRequest txHash) dst s).
Proof.
  intros Hobs Hall.
  unfold override, getTxStatusFromDestShard, bind. rewrite Hobs.
  rewrite <- (app_nil_r dst) at 1.
  by rewrite destShardLoop_miss.
Qed.

Lemma override_missing txHash rcvShardID sourceStatus e s :
  GetObservers rcvShardID = inl e ->
  override txHash rcvShardID sourceStatus s = (Val (sourceStatus, None), s).
Proof.
  intros Hobs. unfold override, getTxStatusFromDestShard, bind. by rewrite Hobs.
Qed.

(** C1. Let the first candidate that answers GET /transaction/{hash} with
    code 200 and no error be an observer of the sender's shard, and let the
    receiver's shard differ from it. GetTransactionStatus then asks the
    observers of the receiver's shard in order and returns the status of the
    first one that answers with code 200 and no error, with a nil error. If
    none of them does, or GetObservers fails for the receiver's shard, it
    returns the status read from the source-shard observer, with a nil
    error. *)
Theorem GetTransactionStatus_destination_override
    txHash sender s candidates pre o post sndShardID :
  candidates = pre ++ o :: post ->
  allAnswer GetTransactionResponse isMiss (txRequest txHash) (calls s) pre = true ->
  let r := CallRest (visited (txRequest txHash) pre (calls s)) (txRequest txHash o)
             GetTransactionResponse in
  let rcvShardID := fst (getShardByAddress (apiReceiver (out r))) in
  let s1 := logged (txRequest txHash) (pre ++ [o]) s in
  isHit r = true ->
  answeredFromSource sender candidates o (out r) sndShardID ->
  rcvShardID ≠ sndShardID ->
  (forall dst dpre x dpost,
     GetObservers rcvShardID = inr dst ->
     dst = dpre ++ x :: dpost ->
     allAnswer GetTransactionResponse isMiss (txRequest txHash) (calls s1) dpre
     = true ->
     let rx := CallRest (visited (txRequest txHash) dpre (calls s1))
                 (txRequest txHash x) GetTransactionResponse in
     isHit rx = true ->
     GetTransactionStatus txHash sender s
     = (Val (apiStatus (out rx), None), logged (txRequest txHash) (dpre ++ [x]) s1))
  /\ (forall dst,
        GetObservers rcvShardID = inr dst ->
        allAnswer GetTransactionResponse isMiss (txRequest txHash) (calls s1) dst
        = true ->
        GetTransactionStatus txHash sender s
        = (Val (apiStatus (out r), None), logged (txRequest txHash) dst s1))
  /\ (forall e,
        GetObservers rcvShardID = inl e ->
        GetTransactionStatus txHash sender s = (Val (apiStatus (out r), None), s1)).
Proof.
  intros -> Hpre r rcvShardID s1 Hr Hsrc Hne.
  assert (GetTransactionStatus txHash sender s
          = override txHash rcvShardID (apiStatus (out r)) s1) as ->.
  { unfold GetTransactionStatus, getTxStatusWithSenderAddr.
    destruct Hsrc as [(-> & <- & -> & Ho)|(Hs & Hsh & Hobs)].
    - simpl. rewrite transactionStatusLoop_miss by exact Hpre.
      rewrite transactionStatusLoop_hit; try done.
      + unfold s1. by rewrite logged_app.
      + simpl. fold r. fold rcvShardID. by rewrite Ho.
    - apply String.eqb_neq in Hs. rewrite Hs, Hsh, Hobs. simpl.
      rewrite txStatusWithSenderLoop_miss by exact Hpre.
      rewrite txStatusWithSenderLoop_hit; try done.
      unfold s1. by rewrite logged_app. }
  split; [|split].
  - intros dst dpre x dpost Hobs Hdst Hdpre rx Hx.
    by apply (override_hit _ _ _ dst dpre x dpost).
  - intros dst Hobs Hall. by apply override_exhausted.
  - intros e Hobs. by apply (override_missing _ _ _ e).
Qed.

End DestinationOverrideFacts.

(** C1 on a transaction sent from shard 0 to shard 1 and first answered by A,
    an observer of shard 0. *)
Lemma GetTransactionStatus_destination_override_witness :
  (* the destination shard answers *)
  @GetTransactionStatus Mock.converter
    (Mock.processor Mock.inventory Mock.crossShardScript) "abcd" "" Mock.start
  = (Val ("success", None),
     {| heap := ∅;
        calls := [txRequest "abcd" Mock.obsX; txRequest "abcd" Mock.obsA] |})
  (* the destination shard is unreachable, with a sender hint *)
  /\ @GetTransactionStatus Mock.converter
       (Mock.processor Mock.inventory Mock.sourceOnlyScript) "abcd" "erd1a0"
       Mock.start
     = (Val ("pending", None),
        {| heap := ∅;
           calls := [txRequest "abcd" Mock.obsY; txRequest "abcd" Mock.obsX;
                     txRequest "abcd" Mock.obsA] |}).
Proof.
  split.
  - refine (proj1 (@GetTransactionStatus_destination_override Mock.converter
                     (Mock.processor Mock.inventory Mock.crossShardScript)
                     "abcd" "" Mock.start Mock.inventory [] Mock.obsA
                     [Mock.obsB; Mock.obsC; Mock.obsX; Mock.obsY] 0
                     eq_refl eq_refl eq_refl _ _)
                  [Mock.obsX; Mock.obsY] [] Mock.obsX [Mock.obsY]
                  eq_refl eq_refl eq_refl eq_refl).
    + left. repeat split.
    + discriminate.
  - refine (proj1 (proj2 (@GetTransactionStatus_destination_override Mock.converter
                     (Mock.processor Mock.inventory Mock.sourceOnlyScript)
                     "abcd" "erd1a0" Mock.start [Mock.obsA; Mock.obsB; Mock.obsC]
                     [] Mock.obsA [Mock.obsB; Mock.obsC] 0
                     eq_refl eq_refl eq_refl _ _))
                  [Mock.obsX; Mock.obsY] eq_refl eq_refl).
    + right. repeat split. discriminate.
    + discriminate.
Defined.

(** ** SendMultipleTransactions: what happens to the caller's transactions *)

Lemma setIndex_same tx : setIndex (Index tx) tx = tx.
Proof. by destruct tx. Qed.

Lemma setIndex_twice i j tx : setIndex j (setIndex i tx) = setIndex j tx.
Proof. reflexivity. Qed.

Section HeapFacts.
Context {pubKeyConverter : PubkeyConverter} {proc : Processor} {rt : Runtime}.

(** Validation reads the transactions and touches nothing; what it keeps are
    pointers of the input whose transaction validates. *)
Lemma validTxsLoop_state txs acc s : snd (validTxsLoop txs acc s) = s.
Proof.
  revert acc. induction txs as [|p txs IH]; intros acc; [done|].
  simpl. unfold bind, deref. destruct (heap s !! p) as [tx|]; [|done].
  destruct (checkTransactionFields tx); apply IH.
Qed.

Lemma validTxsLoop_valid txs acc s out l :
  fst (validTxsLoop txs acc s) = Val out ->
  l ∈ out ->
  l ∈ acc \/ (l ∈ txs /\ exists tx, heap s !! l = Some tx
                                    /\ checkTransactionFields tx = None).
Proof.
  revert acc. induction txs as [|p txs IH]; intros acc; simpl.
  - intros [= ->]. by left.
  - unfold bind, deref. destruct (heap s !! p) as [tx|] eqn:Hp; [|done].
    destruct (checkTransactionFields tx) eqn:Hc; intros Hrun Hl.
    + destruct (IH _ Hrun Hl) as [H|(H & Htx)]; [by left|].
      right. split; [by right|done].
    + destruct (IH _ Hrun Hl) as [H|(H & Htx)].
      * apply elem_of_app in H as [H|H]; [by left|].
        apply list_elem_of_singleton in H as ->.
        right. split; [by left|by exists tx].
      * right. split; [by right|done].
Qed.

Lemma derefAll_state ps s : snd (derefAll ps s) = s.
Proof.
  induction ps as [|p ps IH]; [done|].
  simpl. unfold bind, deref. destruct (heap s !! p); [|done].
  destruct (derefAll ps s) as [[txs|] s'] eqn:E; simpl in *; by subst.
Qed.

Lemma mergeHashesLoop_state g entries acc s :
  snd (mergeHashesLoop g entries acc s) = s.
Proof.
  revert acc. induction entries as [|[key hash] entries IH]; intros acc; [done|].
  simpl. destruct (key <? 0); [done|].
  destruct (g !! Z.to_nat key) as [p|]; [|done].
  unfold bind, deref. destruct (heap s !! p); [|done]. apply IH.
Qed.

Lemma sendGroupLoop_heap g obs total acc s :
  heap (snd (sendGroupLoop g obs total acc s)) = heap s.
Proof.
  revert s. induction obs as [|o obs IH]; intros s; [done|].
  simpl. unfold bind at 1.
  pose proof (derefAll_state g s) as Hd.
  destruct (derefAll g s) as [[body|] s1]; simpl in Hd; subst s1; [|done].
  unfold bind at 1. unfold CallPostRestEndPoint, call.
  destruct (_ && _).
  - unfold bind, history. simpl.
    match goal with |- context [mergeHashesLoop ?a ?b ?c ?d] =>
      pose proof (mergeHashesLoop_state a b c d) as Hm;
      destruct (mergeHashesLoop a b c d) as [[m|] s2]
    end; simpl in Hm; by subst s2.
  - by rewrite IH.
Qed.

Lemma sendGroupsLoop_heap groups total acc s :
  heap (snd (sendGroupsLoop groups total acc s)) = heap s.
Proof.
  revert total acc s. induction groups as [|[sh g] groups IH]; intros total acc s;
    [done|].
  simpl. destruct (GetObservers sh) as [e|obs]; [done|].
  unfold bind. pose proof (sendGroupLoop_heap g obs total acc s) as Hg.
  destruct (sendGroupLoop g obs total acc s) as [[a|] s1]; simpl in Hg; [|done].
  by rewrite IH.
Qed.

(** Grouping writes [Index] through the pointers of its input and changes
    nothing else. *)
Lemma groupTxsLoop_frame idx txs m s r s' l :
  groupTxsLoop idx txs m s = (r, s') ->
  heap s' !! l = heap s !! l
  \/ (l ∈ txs /\ exists tx j,
        heap s !! l = Some tx /\ heap s' !! l = Some (setIndex j tx)).
Proof.
  revert idx m s. induction txs as [|p txs IH]; intros idx m s; simpl.
  - intros [= _ <-]. by left.
  - unfold bind at 1. unfold deref.
    destruct (heap s !! p) as [tx|] eqn:Hp; [|intros [= _ <-]; by left].
    assert (forall m',
      groupTxsLoop (idx + 1) txs m' s = (r, s') ->
      heap s' !! l = heap s !! l
      \/ (l ∈ p :: txs /\ exists tx0 j, heap s !! l = Some tx0 /\
            heap s' !! l = Some (setIndex j tx0))) as Hskip.
    { intros m' Hrun. destruct (IH _ _ _ Hrun) as [H|(H & Htx)]; [by left|].
      right. split; [by right|done]. }
    destruct (Decode (Sender tx)) as [e|bytes]; [apply Hskip|].
    destruct (ComputeShardId bytes) as [e|sh]; [apply Hskip|].
    unfold bind, store. simpl. intros Hrun.
    destruct (IH _ _ _ Hrun) as [H|(H & tx1 & j & H1 & H2)]; simpl in *.
    + destruct (decide (l = p)) as [->|Hne].
      * rewrite lookup_insert_eq in H. right. split; [by left|].
        exists tx, idx. by rewrite H.
      * rewrite lookup_insert_ne in H by done. by left.
    + right. split; [by right|].
      destruct (decide (l = p)) as [->|Hne].
      * rewrite lookup_insert_eq in H1. injection H1 as <-.
        exists tx, j. by rewrite H2.
      * rewrite lookup_insert_ne in H1 by done. exists tx1, j. by rewrite H2.
Qed.

Lemma groupTxsLoop_calls idx txs m s :
  calls (snd (groupTxsLoop idx txs m s)) = calls s.
Proof.
  revert idx m s. induction txs as [|p txs IH]; intros idx m s; [done|].
  simpl. unfold bind at 1. unfold deref.
  destruct (heap s !! p) as [tx|]; [|done].
  destruct (Decode (Sender tx)) as [e|bytes]; [apply IH|].
  destruct (ComputeShardId bytes) as [e|sh]; [apply IH|].
  unfold bind, store. simpl. by rewrite IH.
Qed.

Lemma onlyIndexWritten_same txs s s' l :
  heap s' !! l = heap s !! l -> onlyIndexWritten txs s s' l.
Proof.
  intros E. unfold onlyIndexWritten. rewrite E. repeat split; [done| |done].
  intros tx ->. exists (Index tx). by rewrite setIndex_same.
Qed.

(** C6, amended. SendMultipleTransactions writes [Index] in place,
    through the pointers of the caller's slice: after the call each of the
    caller's transaction objects equals what it was before except possibly in
    its Index field, no object appears or disappears, and an object that is
    not in the slice, or that fails field validation, is unchanged in every
    field. *)
Theorem SendMultipleTransactions_writes_Index_in_place txs s l :
  let s' := snd (SendMultipleTransactions txs s) in
  (heap s !! l = None -> heap s' !! l = None)
  /\ (forall tx, heap s !! l = Some tx ->
        exists idx, heap s' !! l = Some (setIndex idx tx))
  /\ (forall tx, heap s !! l = Some tx ->
        l ∉ txs \/ checkTransactionFields tx ≠ None ->
        heap s' !! l = Some tx).
Proof.
  cbv zeta. fold (onlyIndexWritten txs s (snd (SendMultipleTransactions txs s)) l).
  unfold SendMultipleTransactions, bind.
  pose proof (validTxsLoop_state txs [] s) as Hvs.
  pose proof (validTxsLoop_valid txs [] s) as Hvv.
  destruct (validTxsLoop txs [] s) as [[txsToSend|] s0]; simpl in Hvs; subst s0;
    [|by apply onlyIndexWritten_same].
  specialize (Hvv txsToSend l eq_refl).
  destruct (length txsToSend =? 0)%nat; [by apply onlyIndexWritten_same|].
  unfold groupTxsByShard.
  destruct (groupTxsLoop 0 txsToSend ∅ s) as [[m|] s1] eqn:Hg;
    pose proof (groupTxsLoop_frame _ _ _ _ _ _ l Hg) as Hf.
  - unfold history. simpl.
    assert (heap (snd (sendGroupsLoop (rangeMap (calls s1) m) 0 ∅ s1)) !! l
            = heap s1 !! l) as Hsend by (by rewrite sendGroupsLoop_heap).
    unfold onlyIndexWritten. rewrite Hsend. clear Hsend.
    destruct Hf as [Hf|(Hin & tx & j & H1 & H2)];
      [by apply (onlyIndexWritten_same txs s s1)|].
    rewrite H1, H2. repeat split; [done| |].
    + intros tx' [= <-]. by exists j.
    + intros tx' [= <-] Hbad.
      destruct (Hvv Hin) as [H|(Hl & tx' & Htx' & Hok)];
        [by apply elem_of_nil in H|].
      rewrite H1 in Htx'. injection Htx' as <-.
      destruct Hbad as [Hbad|Hbad]; done.
  - simpl.
    destruct Hf as [Hf|(Hin & tx & j & H1 & H2)];
      [by apply (onlyIndexWritten_same txs s s1)|].
    unfold onlyIndexWritten. rewrite H1, H2. repeat split; [done| |].
    + intros tx' [= <-]. by exists j.
    + intros tx' [= <-] Hbad.
      destruct (Hvv Hin) as [H|(Hl & tx' & Htx' & Hok)];
        [by apply elem_of_nil in H|].
      rewrite H1 in Htx'. injection Htx' as <-.
      destruct Hbad as [Hbad|Hbad]; done.
Qed.

End HeapFacts.

(** C6 on a caller's transaction whose Index field holds 7. *)
Lemma SendMultipleTransactions_writes_Index_in_place_witness :
  let s := {| heap := Mock.heapSeven; calls := [] |} in
  let s' := snd (@SendMultipleTransactions Mock.converter
                   (Mock.processor Mock.inventory Mock.bulkScript) Mock.runtime
                   [0%nat] s) in
  heap s !! 0%nat = Some (setIndex 7 Mock.tx01)
  /\ (exists idx, heap s' !! 0%nat = Some (setIndex idx (setIndex 7 Mock.tx01)))
  /\ heap s' !! 1%nat = None.
Proof.
  cbv zeta.
  pose proof (@SendMultipleTransactions_writes_Index_in_place Mock.converter
                (Mock.processor Mock.inventory Mock.bulkScript) Mock.runtime
                [0%nat] {| heap := Mock.heapSeven; calls := [] |}) as H.
  split; [reflexivity|]. split.
  - exact (proj1 (proj2 (H 0%nat)) _ eq_refl).
  - exact (proj1 (H 1%nat) eq_refl).
Defined.

(** C6 as stated fails: the caller passes one valid
    transaction whose Index field holds 7; when SendMultipleTransactions
    returns, the caller's object holds Index 0. *)
Lemma SendMultipleTransactions_mutates_input_counterexample :
  let s := {| heap := Mock.heapSeven; calls := [] |} in
  let run := @SendMultipleTransactions Mock.converter
               (Mock.processor Mock.inventory Mock.bulkScript) Mock.runtime
               [0%nat] s in
  (exists r, fst run = Val (r, None))
  /\ Index <$> heap s !! 0%nat = Some 7
  /\ Index <$> heap (snd run) !! 0%nat = Some 0
  /\ heap (snd run) !! 0%nat ≠ heap s !! 0%nat.
Proof.
  cbv zeta. split; [eexists; vm_compute; reflexivity|].
  split; [reflexivity|]. split; [reflexivity|].
  intros H. vm_compute in H. discriminate H.
Qed.

(** C5 fails on the code: [Index] is the position in the list of transactions
    that passed validation, not in the client's array. The client sends an
    invalid transaction (position 0) and a valid one (position 1); the
    observer accepts the batch of one and reports the hash "h_a" at position 0
    of the group. The valid transaction gets Index 0 and the hash is returned
    under key 0; key 1 has no entry. *)
Lemma SendMultipleTransactions_index_after_filtering :
  let s := {| heap := Mock.heapBadGood; calls := [] |} in
  let run := @SendMultipleTransactions Mock.converter
               (Mock.processor Mock.inventory Mock.bulkScript) Mock.runtime
               [0%nat; 1%nat] s in
  @checkTransactionFields Mock.converter Mock.runtime Mock.txBad ≠ None
  /\ @checkTransactionFields Mock.converter Mock.runtime Mock.tx01 = None
  /\ fst run = Val ({| NumOfTxs := 1; TxsHashes := {[ 0 := "h_a" ]} |}, None)
  /\ calls (snd run)
     = [POST "A" MultipleTransactionsPath (BodyTxs [setIndex 0 Mock.tx01])]
  /\ heap (snd run) !! 1%nat = Some (setIndex 0 Mock.tx01).
Proof.
  cbv zeta. split; [discriminate|]. split; [reflexivity|].
  split; [reflexivity|]. split; reflexivity.
Qed.

(** The bulk grouping scenario of the design: four transactions with senders
    in shards 0, 1, 0, 1; the first observer of each shard accepts its group
    and reports "h_a" and "h_b" for positions 0 and 1. *)
Example SendMultipleTransactions_bulk_grouping :
  let s := {| heap := Mock.heapFour; calls := [] |} in
  let run := @SendMultipleTransactions Mock.converter
               (Mock.processor Mock.inventory Mock.bulkScript) Mock.runtime
               [0; 1; 2; 3]%nat s in
  fst run
  = Val ({| NumOfTxs := 4;
            TxsHashes := {[ 0 := "h_a"; 2 := "h_b"; 1 := "h_a"; 3 := "h_b" ]} |},
         None)
  /\ Index <$> heap (snd run) !! 2%nat = Some 2.
Proof. cbv zeta. split; reflexivity. Qed.

(** ** SendMultipleTransactions: what is sent and what is merged *)

Section BulkFacts.
Context {pubKeyConverter : PubkeyConverter} {proc : Processor} {rt : Runtime}.

Lemma issued_app n2 n1 h0 :
  issued (n2 ++ n1) h0 = issued n1 h0 ++ issued n2 (n1 ++ h0).
Proof.
  induction n2 as [|r n2 IH]; simpl; [by rewrite app_nil_r|].
  by rewrite IH, <- !app_assoc.
Qed.

Lemma totalSent_app cs1 cs2 : totalSent (cs1 ++ cs2) = totalSent cs1 + totalSent cs2.
Proof. induction cs1 as [|c cs1 IH]; simpl; [done|]. rewrite IH. lia. Qed.

Lemma merged_refl acc : merged [] acc acc.
Proof.
  repeat split; [done|by left|].
  intros c k hsh Hc. by apply elem_of_nil in Hc.
Qed.

Lemma merged_trans cs1 cs2 a b c :
  merged cs1 a b -> merged cs2 b c -> merged (cs1 ++ cs2) a c.
Proof.
  intros (M1 & S1 & C1) (M2 & S2 & C2). repeat split.
  - intros i Hi. by apply M2, M1.
  - intros i hsh Hi. destruct (S2 _ _ Hi) as [Hb|(x & k & tx & Hx & Hrest)].
    + destruct (S1 _ _ Hb) as [Ha|(x & k & tx & Hx & Hrest)]; [by left|].
      right. exists x, k, tx. split; [|done]. apply elem_of_app. by left.
    + right. exists x, k, tx. split; [|done]. apply elem_of_app. by right.
  - intros x k hsh Hx Hacc Hk. apply elem_of_app in Hx as [Hx|Hx].
    + destruct (C1 _ _ _ Hx Hacc Hk) as (tx & Htx & Hsome).
      exists tx. split; [done|]. by apply M2.
    + by apply (C2 _ _ _ Hx Hacc Hk).
Qed.

Lemma merged_rejected x acc : accepted x = false -> merged [x] acc acc.
Proof.
  intros Hx. repeat split; [done|by left|].
  intros c k hsh Hc Hacc. apply list_elem_of_singleton in Hc as ->. congruence.
Qed.

Lemma derefAll_Forall2 g b s :
  Forall2 (fun l tx => heap s !! l = Some tx) g b -> derefAll g s = (Val b, s).
Proof.
  induction 1 as [|l tx g b Hl _ IH]; [done|].
  simpl. unfold bind, deref. rewrite Hl, IH. done.
Qed.

Lemma mergeHashesLoop_spec g b entries acc s :
  Forall2 (fun l tx => heap s !! l = Some tx) g b ->
  (forall k hsh, (k, hsh) ∈ entries -> 0 <= k < Z.of_nat (length b)) ->
  exists acc',
    mergeHashesLoop g entries acc s = (Val acc', s)
    /\ (forall i, is_Some (acc !! i) -> is_Some (acc' !! i))
    /\ (forall i hsh, acc' !! i = Some hsh ->
          acc !! i = Some hsh
          \/ exists k tx, (k, hsh) ∈ entries
                          /\ b !! Z.to_nat k = Some tx /\ Index tx = i)
    /\ (forall k hsh, (k, hsh) ∈ entries ->
          exists tx, b !! Z.to_nat k = Some tx /\ is_Some (acc' !! Index tx)).
Proof.
  intros Hb. revert acc.
  induction entries as [|[key hash] entries IH]; intros acc Hrange.
  - exists acc. repeat split; [done|by left|].
    intros k hsh Hk. by apply elem_of_nil in Hk.
  - assert (0 <= key < Z.of_nat (length b)) as Hkey
      by (apply (Hrange key hash); by left).
    assert (exists tx, b !! Z.to_nat key = Some tx) as [tx Htx].
    { apply lookup_lt_is_Some. lia. }
    destruct (Forall2_lookup_r _ _ _ _ _ Hb Htx) as (p & Hp & Hheap).
    destruct (IH (<[Index tx := hash]> acc)) as (acc' & Hrun & M & S & C).
    { intros k hsh Hk. apply (Hrange k hsh). by right. }
    exists acc'. simpl.
    destruct (Z.ltb_spec key 0); [lia|].
    rewrite Hp. unfold bind, deref. rewrite Hheap.
    split; [exact Hrun|]. repeat split.
    + intros i Hi. apply M.
      destruct (decide (Index tx = i)) as [->|Hne].
      * rewrite lookup_insert_eq. by eexists.
      * by rewrite lookup_insert_ne.
    + intros i hsh Hi. destruct (S _ _ Hi) as [Hacc|(k & tx' & Hk & Hrest)].
      * destruct (decide (Index tx = i)) as [<-|Hne].
        -- rewrite lookup_insert_eq in Hacc. injection Hacc as <-.
           right. exists key, tx. split; [by left|done].
        -- rewrite lookup_insert_ne in Hacc by done. by left.
      * right. exists k, tx'. split; [by right|done].
    + intros k hsh Hk. apply elem_of_cons in Hk as [[= -> ->]|Hk].
      * exists tx. split; [done|]. apply M. rewrite lookup_insert_eq. by eexists.
      * by apply (C k hsh).
Qed.

Lemma merged_accepted (r : reply ResponseMultiple) x entries b acc acc' :
  accepted x = true -> answerOf x = out r -> bodyOf (snd x) = b ->
  entries ≡ₚ map_to_list (TxsHashes (out r)) ->
  (forall i, is_Some (acc !! i) -> is_Some (acc' !! i)) ->
  (forall i hsh, acc' !! i = Some hsh ->
     acc !! i = Some hsh
     \/ exists k tx, (k, hsh) ∈ entries /\ b !! Z.to_nat k = Some tx /\ Index tx = i) ->
  (forall k hsh, (k, hsh) ∈ entries ->
     exists tx, b !! Z.to_nat k = Some tx /\ is_Some (acc' !! Index tx)) ->
  merged [x] acc acc'.
Proof.
  intros Hx Hans Hbody Hperm M S C.
  assert (forall k hsh, (k, hsh) ∈ entries <-> TxsHashes (out r) !! k = Some hsh)
    as Hin.
  { intros k hsh. rewrite Hperm. apply elem_of_map_to_list. }
  repeat split; [exact M| |].
  - intros i hsh Hi. destruct (S _ _ Hi) as [Hacc|(k & tx & Hk & Htx & Hidx)];
      [by left|].
    right. exists x, k, tx. rewrite Hans, Hbody.
    split; [by apply list_elem_of_singleton|]. split; [done|].
    split; [by apply Hin|done].
  - intros c k hsh Hc _ Hk. apply list_elem_of_singleton in Hc as ->.
    rewrite Hans in Hk. rewrite Hbody. apply (C k hsh). by apply Hin.
Qed.

Lemma sendGroupLoop_spec g b obs total acc s :
  positionsInBatch ->
  Forall2 (fun l tx => heap s !! l = Some tx) g b ->
  exists total' acc' new,
    sendGroupLoop g obs total acc s
    = (Val (total', acc'), {| heap := heap s; calls := new ++ calls s |})
    /\ (forall X, total = X mod 2 ^ 64 ->
          total' = (X + totalSent (issued new (calls s))) mod 2 ^ 64)
    /\ Forall (fun c => exists o, o ∈ obs /\ snd c = bulkRequest b o)
         (issued new (calls s))
    /\ merged (issued new (calls s)) acc acc'.
Proof.
  intros Hpos. revert s. induction obs as [|o obs IH]; intros s Hb.
  - exists total, acc, []. simpl. split; [by destruct s|].
    split; [intros X ->; by rewrite Z.add_0_r|].
    split; [constructor|apply merged_refl].
  - simpl. unfold bind at 1. rewrite (derefAll_Forall2 _ _ _ Hb).
    unfold bind at 1. unfold CallPostRestEndPoint, call.
    fold (bulkRequest b o).
    set (r := CallRest (calls s) (bulkRequest b o) ResponseMultiple).
    set (s1 := {| heap := heap s; calls := bulkRequest b o :: calls s |}).
    destruct ((code r =? StatusOK) && isNil (err r)) eqn:Hr.
    + unfold bind at 1. unfold history.
      destruct (mergeHashesLoop_spec g b
                  (rangeMap (calls s1) (TxsHashes (out r))) acc s1 Hb)
        as (acc' & Hrun & M & S & C).
      { intros k hsh Hk. rewrite rangeMap_perm in Hk.
        apply elem_of_map_to_list in Hk.
        apply (Hpos (calls s) (Address o) b k); [exact Hr|by eexists]. }
      exists ((total + NumOfTxs (out r)) mod 2 ^ 64), acc', [bulkRequest b o].
      unfold bind. rewrite Hrun. simpl.
      assert (accepted (calls s, bulkRequest b o) = true) as Hacc by exact Hr.
      split; [done|]. split; [|split].
      * intros X ->. rewrite Hacc. fold r. rewrite Z.add_0_r.
        by rewrite Zplus_mod_idemp_l.
      * constructor; [|constructor]. exists o. split; [by left|done].
      * apply (merged_accepted r _ (rangeMap (calls s1) (TxsHashes (out r))) b);
          try done. apply rangeMap_perm.
    + destruct (IH s1 Hb) as (total' & acc' & new & Hrun & Hsum & Hprov & Hm).
      exists total', acc', (new ++ [bulkRequest b o]).
      rewrite Hrun. simpl. rewrite <- app_assoc. simpl.
      split; [done|].
      rewrite issued_app. simpl.
      assert (accepted (calls s, bulkRequest b o) = false) as Hacc by exact Hr.
      split; [|split].
      * intros X HX. rewrite Hacc. simpl. by apply Hsum.
      * constructor; [exists o; split; [by left|done]|].
        eapply Forall_impl; [exact Hprov|].
        intros c (o' & Ho' & Hc). exists o'. split; [by right|done].
      * apply (merged_trans [_] _ acc acc acc'); [|exact Hm].
        by apply merged_rejected.
Qed.

Lemma sendGroupsLoop_spec gs total acc s :
  positionsInBatch ->
  sendable s gs ->
  exists r new,
    sendGroupsLoop gs total acc s
    = (Val (r, None), {| heap := heap s; calls := new ++ calls s |})
    /\ (forall X, total = X mod 2 ^ 64 ->
          NumOfTxs r = (X + totalSent (issued new (calls s))) mod 2 ^ 64)
    /\ Forall (batchOf s gs) (issued new (calls s))
    /\ merged (issued new (calls s)) acc (TxsHashes r).
Proof.
  intros Hpos. revert total acc s.
  induction gs as [|[sh g] gs IH]; intros total acc s Hgs.
  - exists {| NumOfTxs := total; TxsHashes := acc |}, []. simpl.
    split; [by destruct s|].
    split; [intros X ->; by rewrite Z.add_0_r|].
    split; [constructor|apply merged_refl].
  - apply Forall_cons in Hgs as [[[obs Hobs] [b Hb]] Hgs]. simpl in Hobs, Hb.
    simpl. rewrite Hobs. unfold bind.
    destruct (sendGroupLoop_spec g b obs total acc s Hpos Hb)
      as (total1 & acc1 & new1 & Hrun1 & Hsum1 & Hprov1 & Hm1).
    rewrite Hrun1. simpl.
    set (s1 := {| heap := heap s; calls := new1 ++ calls s |}).
    destruct (IH total1 acc1 s1 Hgs) as (r & new2 & Hrun2 & Hsum2 & Hprov2 & Hm2).
    exists r, (new2 ++ new1). rewrite Hrun2. simpl. rewrite <- app_assoc.
    split; [done|].
    rewrite issued_app. split; [|split].
    + intros X HX. rewrite totalSent_app, Z.add_assoc.
      apply Hsum2. by apply Hsum1.
    + apply Forall_app. split.
      * eapply Forall_impl; [exact Hprov1|].
        intros c (o & Ho & Hc). exists sh, g, obs, o.
        split; [by left|]. split; [done|]. split; [done|].
        rewrite Hc. simpl. done.
      * eapply Forall_impl; [exact Hprov2|].
        intros c (sh' & g' & obs' & o & Hin & Hrest).
        exists sh', g', obs', o. split; [by right|done].
    + by apply (merged_trans _ _ acc acc1).
Qed.

End BulkFacts.

Section GroupingFacts.
Context {pubKeyConverter : PubkeyConverter} {proc : Processor} {rt : Runtime}.

Lemma validTxsLoop_spec txs acc s :
  (forall l, l ∈ txs -> is_Some (heap s !! l)) ->
  validTxsLoop txs acc s
  = (Val (acc ++ filter (fun l => validAt (heap s) l = true) txs), s).
Proof.
  revert acc. induction txs as [|p txs IH]; intros acc Hptr; simpl.
  - by rewrite app_nil_r.
  - unfold bind, deref. destruct (Hptr p) as [tx Htx]; [by left|].
    assert (validAt (heap s) p = isNil (checkTransactionFields tx)) as Hv
      by (unfold validAt; by rewrite Htx).
    rewrite Htx, filter_cons.
    assert (forall l, l ∈ txs -> is_Some (heap s !! l)) as Hptr'
      by (intros l Hl; apply Hptr; by right).
    destruct (checkTransactionFields tx); simpl in *.
    + rewrite decide_False by (by rewrite Hv). by apply IH.
    + rewrite decide_True by done. rewrite IH by done. by rewrite <- app_assoc.
Qed.

Lemma group_filter hp sh txs :
  filter (fun l => shardAt hp l = Some sh)
    (filter (fun l => validAt hp l = true) txs)
  = groupOf hp sh txs.
Proof.
  unfold groupOf. rewrite list_filter_filter. apply list_filter_iff.
  intros l. unfold shardAt, validAt, routedTo.
  destruct (hp !! l) as [tx|]; [|by split; [intros [H _]|]].
  rewrite andb_true_iff, bool_decide_eq_true. by split; intros [H1 H2].
Qed.

Lemma routedTo_setIndex hp hp' sh l :
  (hp' !! l = hp !! l
   \/ exists tx j, hp !! l = Some tx /\ hp' !! l = Some (setIndex j tx)) ->
  routedTo hp' sh l = routedTo hp sh l.
Proof.
  unfold routedTo. intros [->|(tx & j & -> & ->)]; done.
Qed.

Lemma Forall2_deref (hp : gmap loc Transaction) (g : list loc) :
  (forall l, l ∈ g -> is_Some (hp !! l)) ->
  exists b, Forall2 (fun l tx => hp !! l = Some tx) g b.
Proof.
  induction g as [|l g IH]; intros Hg; [by exists []|].
  destruct (Hg l) as [tx Htx]; [by left|].
  destruct IH as [b Hb]; [intros l' Hl'; apply Hg; by right|].
  exists (tx :: b). by constructor.
Qed.

Lemma omap_deref (hp : gmap loc Transaction) (g : list loc) b :
  Forall2 (fun l tx => hp !! l = Some tx) g b -> omap (fun l => hp !! l) g = b.
Proof.
  induction 1 as [|l tx g b Hl _ IH]; [done|].
  simpl. rewrite Hl. simpl. f_equal. exact IH.
Qed.

(** Grouping, when every pointer has its transaction: the map holds, per
    shard, the pointers whose sender is in that shard, in input order; and
    each of them carries a position of the input list as its Index. *)
Lemma groupTxsLoop_spec txs idx m s :
  (forall l, l ∈ txs -> is_Some (heap s !! l)) ->
  exists m' s',
    groupTxsLoop idx txs m s = (Val m', s')
    /\ (forall sh,
          default [] (m' !! sh)
          = default [] (m !! sh)
            ++ filter (fun l => shardAt (heap s) l = Some sh) txs)
    /\ (forall sh, is_Some (m' !! sh) ->
          is_Some (m !! sh)
          \/ filter (fun l => shardAt (heap s) l = Some sh) txs ≠ [])
    /\ (forall l tx,
          heap s !! l = Some tx -> l ∈ txs -> is_Some (senderShard tx) ->
          exists n : nat,
            txs !! n = Some l
            /\ heap s' !! l = Some (setIndex (idx + Z.of_nat n) tx)).
Proof.
  revert idx m s. induction txs as [|p txs IH]; intros idx m s Hptr.
  - exists m, s. split; [done|]. split; [intros sh; by rewrite app_nil_r|].
    split; [intros sh Hs; by left|].
    intros l tx _ Hl. by apply elem_of_nil in Hl.
  - destruct (Hptr p) as [tx Htx]; [by left|].
    assert (forall l, l ∈ txs -> is_Some (heap s !! l)) as Hptr'
      by (intros l Hl; apply Hptr; by right).
    assert (senderShard tx = None ->
            exists m' s',
              groupTxsLoop (idx + 1) txs m s = (Val m', s')
              /\ (forall sh,
                    default [] (m' !! sh)
                    = default [] (m !! sh)
                      ++ filter (fun l => shardAt (heap s) l = Some sh) (p :: txs))
              /\ (forall sh, is_Some (m' !! sh) ->
                    is_Some (m !! sh)
                    \/ filter (fun l => shardAt (heap s) l = Some sh) (p :: txs)
                       ≠ [])
              /\ (forall l tx,
                    heap s !! l = Some tx -> l ∈ p :: txs ->
                    is_Some (senderShard tx) ->
                    exists n : nat,
                      (p :: txs) !! n = Some l
                      /\ heap s' !! l = Some (setIndex (idx + Z.of_nat n) tx)))
      as Hleftout.
    { (* the sender's shard cannot be computed: the transaction is left out *)
      intros Hsh.
      assert (shardAt (heap s) p = None) as Hp
        by (unfold shardAt; by rewrite Htx).
      destruct (IH (idx + 1) m s Hptr') as (m' & s' & Hrun & Hmap & Hdom & Hidx).
      exists m', s'. split; [done|]. split; [|split].
      * intros sh. rewrite Hmap, filter_cons.
        by rewrite decide_False by (rewrite Hp; congruence).
      * intros sh Hs. destruct (Hdom sh Hs) as [H1|H1]; [by left|].
        right. rewrite filter_cons.
        by rewrite decide_False by (rewrite Hp; congruence).
      * intros l tx0 Hl Hin Hs0.
        apply elem_of_cons in Hin as [->|Hin].
        -- rewrite Htx in Hl. injection Hl as <-. rewrite Hsh in Hs0.
           by destruct Hs0.
        -- destruct (Hidx l tx0 Hl Hin Hs0) as (n & Hn & Hh).
           exists (S n). split; [done|]. rewrite Hh. do 2 f_equal. lia. }
    simpl. unfold bind at 1. unfold deref. rewrite Htx.
    unfold senderShard in Hleftout.
    destruct (Decode (Sender tx)) as [e|bytes] eqn:Hdec; [by apply Hleftout|].
    destruct (ComputeShardId bytes) as [e|sh0] eqn:Hcomp; [by apply Hleftout|].
    clear Hleftout.
    (* the transaction is stamped and appended to the group of [sh0] *)
    assert (senderShard tx = Some sh0) as Htxsh
      by (unfold senderShard; by rewrite Hdec, Hcomp).
    unfold bind, store. simpl.
    set (s1 := {| heap := <[p := setIndex idx tx]> (heap s); calls := calls s |}).
    set (m1 := <[sh0 := default [] (m !! sh0) ++ [p]]> m).
    assert (forall l, shardAt (heap s1) l = shardAt (heap s) l) as Hshard.
    { intros l. unfold shardAt, s1. simpl.
      destruct (decide (l = p)) as [->|Hne].
      - rewrite lookup_insert_eq, Htx. done.
      - by rewrite lookup_insert_ne. }
    assert (shardAt (heap s) p = Some sh0) as Hp
      by (unfold shardAt; by rewrite Htx).
    destruct (IH (idx + 1) m1 s1) as (m' & s' & Hrun & Hmap & Hdom & Hidx).
    { intros l Hl. unfold s1. simpl.
      destruct (decide (l = p)) as [->|Hne].
      - rewrite lookup_insert_eq. by eexists.
      - rewrite lookup_insert_ne by done. by apply Hptr'. }
    exists m', s'. split; [done|]. split; [|split].
    + intros sh. rewrite Hmap, filter_cons.
      rewrite (list_filter_iff _ (fun l => shardAt (heap s) l = Some sh))
        by (intros l; by rewrite Hshard).
      unfold m1. destruct (decide (sh = sh0)) as [->|Hne].
      * rewrite lookup_insert_eq. simpl.
        rewrite decide_True by done. by rewrite <- app_assoc.
      * rewrite lookup_insert_ne by done.
        rewrite decide_False by (rewrite Hp; congruence). done.
    + intros sh Hs. destruct (Hdom sh Hs) as [H1|H1].
      * unfold m1 in H1. destruct (decide (sh = sh0)) as [->|Hne].
        -- right. rewrite filter_cons, decide_True by done. done.
        -- rewrite lookup_insert_ne in H1 by done. by left.
      * right. rewrite filter_cons.
        rewrite (list_filter_iff _ (fun l => shardAt (heap s1) l = Some sh))
          by (intros l; by rewrite Hshard).
        case_decide; [done|exact H1].
    + intros l tx0 Hl Hin Hs0.
      destruct (decide (l ∈ txs)) as [Hintxs|Hnotin].
      * destruct (decide (l = p)) as [->|Hne].
        -- rewrite Htx in Hl. injection Hl as <-.
           destruct (Hidx p (setIndex idx tx)) as (n & Hn & Hh); [..|done|].
           { unfold s1. simpl. by rewrite lookup_insert_eq. }
           { done. }
           exists (S n). split; [done|]. rewrite Hh, setIndex_twice.
           do 2 f_equal. lia.
        -- destruct (Hidx l tx0) as (n & Hn & Hh); [..|done|].
           { unfold s1. simpl. by rewrite lookup_insert_ne. }
           { done. }
           exists (S n). split; [done|]. rewrite Hh. do 2 f_equal. lia.
      * apply elem_of_cons in Hin as [->|Hin]; [|done].
        rewrite Htx in Hl. injection Hl as <-.
        exists 0%nat. split; [done|].
        destruct (groupTxsLoop_frame _ _ _ _ _ _ p Hrun)
          as [Hsame|(Hin & _)]; [|done].
        rewrite Hsame. unfold s1. simpl. rewrite lookup_insert_eq.
        do 2 f_equal. lia.
Qed.

End GroupingFacts.

Section BulkTheorem.
Context {pubKeyConverter : PubkeyConverter} {proc : Processor} {rt : Runtime}.

Lemma groupOf_inv hp sh txs l :
  l ∈ groupOf hp sh txs ->
  l ∈ txs /\ validAt hp l = true
  /\ exists tx, hp !! l = Some tx /\ checkTransactionFields tx = None
                /\ senderShard tx = Some sh.
Proof.
  unfold groupOf. rewrite list_elem_of_filter. intros [Hr Hl].
  split; [done|]. unfold routedTo, validAt in *.
  destruct (hp !! l) as [tx|]; [|done].
  apply andb_true_iff in Hr as [Hv Hs]. apply bool_decide_eq_true in Hs.
  split; [done|]. exists tx. split; [done|]. split; [|done].
  by destruct (checkTransactionFields tx).
Qed.


End BulkTheorem.

(** The scripted observers of [Mock.shardOneScript] keep to the positions of
    the batch. *)
Lemma shardOneScript_positionsInBatch :
  @positionsInBatch (Mock.processor Mock.inventory Mock.shardOneScript).
Proof.
  intros h a body k. simpl. unfold isSuccess. simpl.
  destruct (String.eqb a "X"); [|discriminate].
  destruct body as [|t1 [|t2 body]]; simpl; intros _ [v Hv].
  - by rewrite lookup_empty in Hv.
  - destruct (decide (k = 0)) as [->|Hne]; [lia|].
    rewrite lookup_insert_ne in Hv by done. by rewrite lookup_empty in Hv.
  - destruct (decide (k = 0)) as [->|Hne0]; [lia|].
    destruct (decide (k = 1)) as [->|Hne1]; [lia|].
    rewrite !lookup_insert_ne in Hv by done.
    rewrite take_nil in Hv. simpl in Hv. by rewrite lookup_empty in Hv.
Qed.

Lemma heapFour_pointers (l : loc) :
  l ∈ ([0; 1; 2; 3]%nat : list loc) ->
  Mock.heapFour !! l = Some Mock.tx01 \/ Mock.heapFour !! l = Some Mock.tx10.
Proof.
  intros Hl. repeat (apply elem_of_cons in Hl as [->|Hl]);
    [by left|by right|by left|by right|by apply elem_of_nil in Hl].
Qed.


(** * Further properties of the processors *)

(** ** GetTransaction and GetTransactionByHashAndSenderAddress *)

(** GetTransaction when A is down and B answers: B's transaction is returned
    and C is not asked. *)
Lemma GetTransaction_outcomes_witness :
  @GetTransaction (Mock.processor [Mock.obsA; Mock.obsB; Mock.obsC]
                     Mock.hitAtBScript) "abcd" Mock.start
  = (Val (Some (mkApiTx "erd1a0" "erd1a0" "success"), None),
     logged (txRequest "abcd") [Mock.obsA; Mock.obsB] Mock.start).
Proof.
  exact (proj1 (@GetTransaction_outcomes
                  (Mock.processor [Mock.obsA; Mock.obsB; Mock.obsC]
                     Mock.hitAtBScript) "abcd" Mock.start)
               [Mock.obsA] Mock.obsB [Mock.obsC] eq_refl eq_refl eq_refl).
Defined.

Section BySenderFacts.
Context {pubKeyConverter : PubkeyConverter} {proc : Processor}.

Lemma getTransactionBySenderLoop_miss txHash pre rest s :
  allAnswer GetTransactionResponse isMiss (txRequest txHash) (calls s) pre = true ->
  getTransactionBySenderLoop txHash (pre ++ rest) s
  = getTransactionBySenderLoop txHash rest (logged (txRequest txHash) pre s).
Proof.
  revert s. induction pre as [|o pre IH]; intros s H.
  - by rewrite logged_nil.
  - simpl in H. apply andb_true_iff in H as [Ho Hpre].
    rewrite logged_cons. simpl.
    unfold bind, CallGetRestEndPoint, call.
    fold (txRequest txHash o).
    unfold isMiss, isHit in Ho. apply negb_true_iff in Ho.
    destruct (code _ =? StatusOK); simpl.
    + rewrite andb_true_r in Ho. rewrite Ho. simpl. by rewrite IH.
    + by rewrite IH.
Qed.

(** X2. GetTransactionByHashAndSenderAddress: a sender whose shard cannot be
    resolved gives 400 with ErrInvalidSenderAddress (the codec's own error is
    dropped), a failing GetObservers gives 500 with its error, both without
    any call; otherwise the observers of the sender's shard are asked in
    order, the first answer with code 200 and no error gives (tx, 200, nil)
    and ends the traversal, and exhaustion gives (nil, 404,
    ErrTransactionNotFound) whatever the observers reported. *)
Theorem GetTransactionByHashAndSenderAddress_outcomes txHash sndAddr s :
  (forall z e,
     getShardByAddress sndAddr = (z, Some e) ->
     GetTransactionByHashAndSenderAddress txHash sndAddr s
     = (Val (None, StatusBadRequest, Some ErrInvalidSenderAddress), s))
  /\ (forall shardID e,
        getShardByAddress sndAddr = (shardID, None) ->
        GetObservers shardID = inl e ->
        GetTransactionByHashAndSenderAddress txHash sndAddr s
        = (Val (None, StatusInternalServerError, Some e), s))
  /\ (forall shardID observers,
        getShardByAddress sndAddr = (shardID, None) ->
        GetObservers shardID = inr observers ->
        (forall pre o post,
           observers = pre ++ o :: post ->
           allAnswer GetTransactionResponse isMiss (txRequest txHash) (calls s) pre
           = true ->
           isHit (CallRest (visited (txRequest txHash) pre (calls s))
                    (txRequest txHash o) GetTransactionResponse) = true ->
           GetTransactionByHashAndSenderAddress txHash sndAddr s
           = (Val (Some (out (CallRest (visited (txRequest txHash) pre (calls s))
                                (txRequest txHash o) GetTransactionResponse)),
                   StatusOK, None),
              logged (txRequest txHash) (pre ++ [o]) s))
        /\ (allAnswer GetTransactionResponse isMiss (txRequest txHash) (calls s)
              observers = true ->
            GetTransactionByHashAndSenderAddress txHash sndAddr s
            = (Val (None, StatusNotFound, Some ErrTransactionNotFound),
               logged (txRequest txHash) observers s))).
Proof.
  unfold GetTransactionByHashAndSenderAddress. split; [|split].
  - intros z e ->. done.
  - intros sh e -> ->. done.
  - intros sh observers -> ->. split.
    + intros pre o post -> Hpre Ho.
      rewrite getTransactionBySenderLoop_miss by exact Hpre.
      rewrite logged_app. simpl.
      unfold bind, CallGetRestEndPoint, call. simpl.
      fold (txRequest txHash o).
      unfold isHit in Ho. apply andb_true_iff in Ho as [He Hc].
      by rewrite Hc, He.
    + intros Hall. rewrite <- (app_nil_r observers) at 1.
      by rewrite getTransactionBySenderLoop_miss.
Qed.

End BySenderFacts.

(** The transaction is found at B; with the sender "garbage" nobody is
    asked. *)
Lemma GetTransactionByHashAndSenderAddress_outcomes_witness :
  let proc := Mock.processor Mock.inventory Mock.hitAtBScript in
  @GetTransactionByHashAndSenderAddress Mock.converter proc "abcd" "erd1a0"
    Mock.start
  = (Val (Some (mkApiTx "erd1a0" "erd1a0" "success"), 200, None),
     logged (txRequest "abcd") [Mock.obsA; Mock.obsB] Mock.start)
  /\ @GetTransactionByHashAndSenderAddress Mock.converter proc "abcd" "garbage"
       Mock.start
     = (Val (None, 400, Some ErrInvalidSenderAddress), Mock.start).
Proof.
  cbv zeta.
  pose proof (@GetTransactionByHashAndSenderAddress_outcomes Mock.converter
                (Mock.processor Mock.inventory Mock.hitAtBScript) "abcd")
    as H.
  split.
  - destruct (H "erd1a0" Mock.start) as (_ & _ & H3).
    destruct (H3 0 [Mock.obsA; Mock.obsB; Mock.obsC] eq_refl eq_refl) as [Hhit _].
    exact (Hhit [Mock.obsA] Mock.obsB [Mock.obsC] eq_refl eq_refl eq_refl).
  - destruct (H "garbage" Mock.start) as (H1 & _).
    exact (H1 0 (ErrText "invalid bech32 string") eq_refl).
Defined.

(** ** GetTransactionStatus: the answer that needs no second opinion *)

Section StatusMoreFacts.
Context {pubKeyConverter : PubkeyConverter} {proc : Processor}.

(** X3. When the first candidate that answers with code 200 and no error reports
    a transaction whose receiver shard equals its sender shard, or (without a
    sender hint) sits itself in the receiver's shard, GetTransactionStatus
    returns the status it reports with a nil error and asks nobody else. With
    a sender hint the comparison uses the hinted sender's shard and the
    observer's own shard is not looked at. *)
Theorem GetTransactionStatus_authoritative txHash sender s candidates pre o post :
  candidates = pre ++ o :: post ->
  allAnswer GetTransactionResponse isMiss (txRequest txHash) (calls s) pre = true ->
  let r := CallRest (visited (txRequest txHash) pre (calls s)) (txRequest txHash o)
             GetTransactionResponse in
  let sndShardID := fst (getShardByAddress (apiSender (out r))) in
  let rcvShardID := fst (getShardByAddress (apiReceiver (out r))) in
  isHit r = true ->
  (sender = "" /\ candidates = GetAllObservers
   /\ (sndShardID = rcvShardID \/ rcvShardID = ShardId o))
  \/ (sender ≠ "" /\ getShardByAddress sender = (rcvShardID, None)
      /\ GetObservers rcvShardID = inr candidates) ->
  GetTransactionStatus txHash sender s
  = (Val (apiStatus (out r), None), logged (txRequest txHash) (pre ++ [o]) s).
Proof.
  intros -> Hpre r sndShardID rcvShardID Hr Hcase.
  unfold GetTransactionStatus, getTxStatusWithSenderAddr.
  destruct Hcase as [(-> & <- & Hauth)|(Hs & Hsh & Hobs)].
  - simpl. rewrite transactionStatusLoop_miss by exact Hpre.
    rewrite logged_app. simpl. unfold bind at 1. rewrite getTxFromObserver_run.
    simpl. fold r. rewrite Hr. fold sndShardID rcvShardID.
    assert ((sndShardID =? rcvShardID) || (rcvShardID =? ShardId o) = true) as ->.
    { apply orb_true_iff. destruct Hauth as [H|H]; [left|right]; by apply Z.eqb_eq. }
    reflexivity.
  - apply String.eqb_neq in Hs. rewrite Hs, Hsh, Hobs. simpl.
    rewrite txStatusWithSenderLoop_miss by exact Hpre.
    rewrite logged_app. simpl. unfold bind at 1. rewrite getTxFromObserver_run.
    simpl. fold r. rewrite Hr. fold rcvShardID.
    by rewrite Z.eqb_refl.
Qed.

Lemma destShardLoop_prefix txHash dst s :
  exists dpre post st ok,
    dst = dpre ++ post
    /\ destShardLoop txHash dst s
       = (Val (st, ok), logged (txRequest txHash) dpre s).
Proof.
  revert s. induction dst as [|x dst IH]; intros s.
  - exists [], [], "", false. by rewrite logged_nil.
  - simpl. unfold bind, CallGetRestEndPoint, call. fold (txRequest txHash x).
    set (r := CallRest (calls s) (txRequest txHash x) GetTransactionResponse).
    assert (exists dpre post st ok,
              x :: dst = dpre ++ post
              /\ destShardLoop txHash dst
                   {| heap := heap s; calls := txRequest txHash x :: calls s |}
                 = (Val (st, ok), logged (txRequest txHash) dpre s)) as Hnext.
    { destruct (IH {| heap := heap s; calls := txRequest txHash x :: calls s |})
        as (dpre & post & st & ok & -> & Hrun).
      exists (x :: dpre), post, st, ok. split; [done|].
      by rewrite Hrun, logged_cons. }
    destruct (isNil (err r)); simpl; [|exact Hnext].
    destruct (code r =? StatusOK); simpl; [|exact Hnext].
    exists [x], dst, (apiStatus (out r)), true. split; [done|].
    by rewrite logged_cons, logged_nil.
Qed.

(** What the override leaves in the log: a prefix of the destination shard's
    observers, or nothing. *)
Lemma override_prefix txHash rcvShardID sourceStatus s :
  exists dpre st,
    override txHash rcvShardID sourceStatus s
    = (Val (st, None), logged (txRequest txHash) dpre s)
    /\ (dpre = [] \/ exists post, GetObservers rcvShardID = inr (dpre ++ post)).
Proof.
  unfold override, getTxStatusFromDestShard, bind.
  destruct (GetObservers rcvShardID) as [e|dst] eqn:Hobs.
  - exists [], sourceStatus. rewrite logged_nil. split; [done|by left].
  - destruct (destShardLoop_prefix txHash dst s)
      as (dpre & post & st & ok & -> & Hrun).
    rewrite Hrun. destruct ok; simpl.
    + exists dpre, st. split; [done|]. right. by exists post.
    + exists dpre, sourceStatus. split; [done|]. right. by exists post.
Qed.

Lemma txStatusWithSenderLoop_prefix txHash sndShardID observers s :
  exists pre post dpre st e,
    observers = pre ++ post
    /\ txStatusWithSenderLoop txHash sndShardID observers s
       = (Val (st, e), logged (txRequest txHash) (pre ++ dpre) s)
    /\ (dpre = [] \/ exists sh dpost, GetObservers sh = inr (dpre ++ dpost))
    /\ (e ≠ None -> st = UnknownStatusTx /\ e = Some ErrTransactionNotFound
                    /\ dpre = [] /\ post = []).
Proof.
  revert s. induction observers as [|o observers IH]; intros s.
  - exists [], [], [], UnknownStatusTx, (Some ErrTransactionNotFound).
    rewrite logged_nil. repeat split; by left.
  - simpl. unfold bind at 1. rewrite getTxFromObserver_run.
    set (r := CallRest (calls s) (txRequest txHash o) GetTransactionResponse).
    set (s1 := {| heap := heap s; calls := txRequest txHash o :: calls s |}).
    destruct (isHit r).
    + destruct (fst (getShardByAddress (apiReceiver (out r))) =? sndShardID).
      * exists [o], observers, [], (apiStatus (out r)), None.
        simpl. rewrite logged_cons, logged_nil.
        repeat split; try done. by left.
      * destruct (override_prefix txHash
                    (fst (getShardByAddress (apiReceiver (out r))))
                    (apiStatus (out r)) s1) as (dpre & st & Hrun & Hd).
        fold (override txHash (fst (getShardByAddress (apiReceiver (out r))))
                (apiStatus (out r))).
        rewrite Hrun.
        exists [o], observers, dpre, st, None.
        split; [done|]. split; [simpl; by rewrite logged_cons|].
        split; [|done].
        destruct Hd as [->|[dpost Hd]]; [by left|]. right. by eexists _, _.
    + destruct (IH s1) as (pre & post & dpre & st & e & -> & Hrun & Hd & He).
      exists (o :: pre), post, dpre, st, e.
      split; [done|]. split; [by rewrite Hrun, <- app_comm_cons, logged_cons|].
      split; [done|]. exact He.
Qed.

Lemma transactionStatusLoop_prefix txHash observers s :
  exists pre post dpre st e,
    observers = pre ++ post
    /\ transactionStatusLoop txHash observers s
       = (Val (st, e), logged (txRequest txHash) (pre ++ dpre) s)
    /\ (dpre = [] \/ exists sh dpost, GetObservers sh = inr (dpre ++ dpost))
    /\ (e ≠ None -> st = UnknownStatusTx /\ e = Some ErrTransactionNotFound
                    /\ dpre = [] /\ post = []).
Proof.
  revert s. induction observers as [|o observers IH]; intros s.
  - exists [], [], [], UnknownStatusTx, (Some ErrTransactionNotFound).
    rewrite logged_nil. repeat split; by left.
  - simpl. unfold bind at 1. rewrite getTxFromObserver_run.
    set (r := CallRest (calls s) (txRequest txHash o) GetTransactionResponse).
    set (s1 := {| heap := heap s; calls := txRequest txHash o :: calls s |}).
    destruct (isHit r).
    + destruct ((fst (getShardByAddress (apiSender (out r)))
                 =? fst (getShardByAddress (apiReceiver (out r))))
                || (fst (getShardByAddress (apiReceiver (out r))) =? ShardId o)).
      * exists [o], observers, [], (apiStatus (out r)), None.
        simpl. rewrite logged_cons, logged_nil.
        repeat split; try done. by left.
      * destruct (override_prefix txHash
                    (fst (getShardByAddress (apiReceiver (out r))))
                    (apiStatus (out r)) s1) as (dpre & st & Hrun & Hd).
        fold (override txHash (fst (getShardByAddress (apiReceiver (out r))))
                (apiStatus (out r))).
        rewrite Hrun.
        exists [o], observers, dpre, st, None.
        split; [done|]. split; [simpl; by rewrite logged_cons|].
        split; [|done].
        destruct Hd as [->|[dpost Hd]]; [by left|]. right. by eexists _, _.
    + destruct (IH s1) as (pre & post & dpre & st & e & -> & Hrun & Hd & He).
      exists (o :: pre), post, dpre, st, e.
      split; [done|]. split; [by rewrite Hrun, <- app_comm_cons, logged_cons|].
      split; [done|]. exact He.
Qed.

(** X4. Whatever the observers answer, GetTransactionStatus returns (it does not
    panic), leaves the transactions in memory alone, and issues only GETs of
    /transaction/{hash}: to a prefix of its candidates, in order, then to a
    prefix of the observers of one further shard, in order; so each list is
    walked at most once. Whenever the error is not nil, the status is
    "unknown". *)
Theorem GetTransactionStatus_bounded txHash sender s :
  exists pre dpre st e,
    GetTransactionStatus txHash sender s
    = (Val (st, e), logged (txRequest txHash) (pre ++ dpre) s)
    /\ (pre = [] \/ exists post, statusCandidates sender (pre ++ post))
    /\ (dpre = [] \/ exists sh dpost, GetObservers sh = inr (dpre ++ dpost))
    /\ (e ≠ None -> st = UnknownStatusTx /\ dpre = []).
Proof.
  unfold GetTransactionStatus, getTxStatusWithSenderAddr.
  destruct (String.eqb_spec sender "") as [->|Hne]; simpl.
  - destruct (transactionStatusLoop_prefix txHash GetAllObservers s)
      as (pre & post & dpre & st & e & Heq & Hrun & Hd & He).
    exists pre, dpre, st, e. split; [done|].
    split; [right; exists post; left; by rewrite <- Heq|].
    split; [done|]. intros H. by destruct (He H) as (? & _ & ? & _).
  - destruct (getShardByAddress sender) as [sh [e|]] eqn:Hsh.
    + exists [], [], UnknownStatusTx, (Some ErrInvalidSenderAddress).
      rewrite logged_nil. repeat split; by left.
    + destruct (GetObservers sh) as [e|observers] eqn:Hobs.
      * exists [], [], UnknownStatusTx, (Some e).
        rewrite logged_nil. repeat split; by left.
      * destruct (txStatusWithSenderLoop_prefix txHash sh observers s)
          as (pre & post & dpre & st & e & Heq & Hrun & Hd & He).
        exists pre, dpre, st, e. split; [done|].
        split; [right; exists post; right; split; [done|]; exists sh;
                by rewrite <- Heq|].
        split; [done|]. intros H. by destruct (He H) as (? & _ & ? & _).
Qed.

End StatusMoreFacts.

(** B answers first with an intra-shard transaction: its status is returned
    and neither C nor any other shard is asked. *)
Lemma GetTransactionStatus_authoritative_witness :
  @GetTransactionStatus Mock.converter
    (Mock.processor Mock.inventory Mock.hitAtBScript) "abcd" "" Mock.start
  = (Val ("success", None),
     logged (txRequest "abcd") [Mock.obsA; Mock.obsB] Mock.start).
Proof.
  refine (@GetTransactionStatus_authoritative Mock.converter
            (Mock.processor Mock.inventory Mock.hitAtBScript)
            "abcd" "" Mock.start Mock.inventory [Mock.obsA] Mock.obsB
            [Mock.obsC; Mock.obsX; Mock.obsY] eq_refl eq_refl eq_refl _).
  left. split; [done|]. split; [done|]. by left.
Defined.

(** ** SendTransaction: what it asks and what it hands back *)

Section SendTransactionMoreFacts.
Context {pubKeyConverter : PubkeyConverter} {proc : Processor} {rt : Runtime}.

Lemma sendTransactionLoop_prefix tx observers s :
  exists pre post respCode txHash e,
    observers = pre ++ post
    /\ sendTransactionLoop tx observers s
       = (Val (respCode, txHash, e), logged (sendRequest tx) pre s)
    /\ (txHash ≠ "" -> respCode = StatusOK /\ e = None).
Proof.
  revert s. induction observers as [|o observers IH]; intros s.
  - exists [], [], StatusInternalServerError, "", (Some ErrSendingRequest).
    by rewrite logged_nil.
  - simpl. unfold bind, CallPostRestEndPoint, call. fold (sendRequest tx o).
    set (r := CallRest (calls s) (sendRequest tx o) ResponseTransaction).
    destruct ((code r =? StatusOK) && isNil (err r)) eqn:Hok.
    + exists [o], observers, (code r), (out r), None.
      rewrite logged_cons, logged_nil. split; [done|]. split; [done|].
      intros _. apply andb_true_iff in Hok as [Hc _]. by apply Z.eqb_eq in Hc.
    + destruct ((code r =? StatusNotFound) || (code r =? StatusRequestTimeout)).
      * destruct (IH {| heap := heap s; calls := sendRequest tx o :: calls s |})
          as (pre & post & c & h & e & -> & Hrun & Hh).
        exists (o :: pre), post, c, h, e.
        split; [done|]. split; [by rewrite Hrun, logged_cons|done].
      * exists [o], observers, (code r), "", (err r).
        rewrite logged_cons, logged_nil. by split.
Qed.

(** X5. Whatever the observers answer, SendTransaction returns (it does not
    panic), leaves the transactions in memory alone, and its calls are POSTs
    of the transaction to [/transaction/send] on a prefix of the observers of
    the sender's shard, in inventory order: no observer is asked twice and
    none is asked out of turn. *)
Theorem SendTransaction_bounded tx s :
  exists pre respCode txHash e,
    SendTransaction tx s
    = (Val (respCode, txHash, e), logged (sendRequest tx) pre s)
    /\ (pre = []
        \/ exists senderBuff shardID post,
             Decode (Sender tx) = inr senderBuff
             /\ ComputeShardId senderBuff = inr shardID
             /\ GetObservers shardID = inr (pre ++ post)).
Proof.
  unfold SendTransaction.
  destruct (checkTransactionFields tx) as [e|].
  { exists [], StatusBadRequest, "", (Some e). rewrite logged_nil. by split; [|left]. }
  destruct (Decode (Sender tx)) as [e|senderBuff] eqn:Hdec.
  { exists [], StatusBadRequest, "", (Some e). rewrite logged_nil. by split; [|left]. }
  destruct (ComputeShardId senderBuff) as [e|shardID] eqn:Hsh.
  { exists [], StatusInternalServerError, "", (Some e). rewrite logged_nil.
    by split; [|left]. }
  destruct (GetObservers shardID) as [e|observers] eqn:Hobs.
  { exists [], StatusInternalServerError, "", (Some e). rewrite logged_nil.
    by split; [|left]. }
  destruct (sendTransactionLoop_prefix tx observers s)
    as (pre & post & c & h & e & -> & Hrun & _).
  exists pre, c, h, e. split; [done|]. right. by exists senderBuff, shardID, post.
Qed.

(** X6. A transaction hash that is not empty is only ever returned together with
    code 200 and a nil error. (The converse does not hold: the first answer
    that is neither a success nor a 404/408 is handed back as it is, so a nil
    error may come with another code and an empty hash.) *)
Theorem SendTransaction_hash_means_success tx s respCode txHash e :
  fst (SendTransaction tx s) = Val (respCode, txHash, e) ->
  txHash ≠ "" ->
  respCode = StatusOK /\ e = None.
Proof.
  unfold SendTransaction.
  destruct (checkTransactionFields tx); [by intros [= _ <- _]|].
  destruct (Decode (Sender tx)) as [?|senderBuff]; [by intros [= _ <- _]|].
  destruct (ComputeShardId senderBuff) as [?|shardID]; [by intros [= _ <- _]|].
  destruct (GetObservers shardID) as [?|observers]; [by intros [= _ <- _]|].
  destruct (sendTransactionLoop_prefix tx observers s)
    as (pre & post & c & h & e' & _ & Hrun & Hh).
  rewrite Hrun. simpl. intros [= -> -> ->]. exact Hh.
Qed.

(** SendTransaction turns a transaction down before any observer is asked:
    with code 400 and an InvalidTxFields error naming the first field that
    fails (sender, then receiver, then signature) together with the decoder's
    own error; with code 500 and the collaborator's error when the sender's
    shard cannot be computed or has no observer list. *)
Theorem SendTransaction_rejections tx s :
  (forall e, Decode (Sender tx) = inl e ->
     SendTransaction tx s
     = (Val (StatusBadRequest, "",
             Some (ErrInvalidTxFields ErrInvalidSenderAddress e)), s))
  /\ (forall b e, Decode (Sender tx) = inr b -> Decode (Receiver tx) = inl e ->
        SendTransaction tx s
        = (Val (StatusBadRequest, "",
                Some (ErrInvalidTxFields ErrInvalidReceiverAddress e)), s))
  /\ (forall b b' e,
        Decode (Sender tx) = inr b -> Decode (Receiver tx) = inr b' ->
        hexDecodeString (Signature tx) = inl e ->
        SendTransaction tx s
        = (Val (StatusBadRequest, "",
                Some (ErrInvalidTxFields ErrInvalidSignatureHex e)), s))
  /\ (forall b e,
        checkTransactionFields tx = None ->
        Decode (Sender tx) = inr b -> ComputeShardId b = inl e ->
        SendTransaction tx s = (Val (StatusInternalServerError, "", Some e), s))
  /\ (forall b shardID e,
        checkTransactionFields tx = None ->
        Decode (Sender tx) = inr b -> ComputeShardId b = inr shardID ->
        GetObservers shardID = inl e ->
        SendTransaction tx s = (Val (StatusInternalServerError, "", Some e), s)).
Proof.
  unfold SendTransaction, checkTransactionFields.
  split; [|split; [|split; [|split]]].
  - by intros e ->.
  - by intros b e -> ->.
  - by intros b b' e -> -> ->.
  - intros b e Hc Hd Hs. rewrite Hd in *.
    destruct (Decode (Receiver tx)); [done|].
    destruct (hexDecodeString (Signature tx)); [done|]. by rewrite Hs.
  - intros b sh e Hc Hd Hs Ho. rewrite Hd in *.
    destruct (Decode (Receiver tx)); [done|].
    destruct (hexDecodeString (Signature tx)); [done|]. by rewrite Hs, Ho.
Qed.

End SendTransactionMoreFacts.

(** B accepts with the hash "h1": the code is 200 and the error nil. *)
Lemma SendTransaction_hash_means_success_witness :
  fst (@SendTransaction Mock.converter
         (Mock.processor Mock.inventory Mock.failoverScript) Mock.runtime
         Mock.tx01 Mock.start)
  = Val (200, "h1", None)
  /\ "h1" ≠ "" /\ (200 : Z) = StatusOK /\ (None : option error) = None.
Proof.
  split; [reflexivity|]. split; [discriminate|].
  apply (@SendTransaction_hash_means_success Mock.converter
           (Mock.processor Mock.inventory Mock.failoverScript) Mock.runtime
           Mock.tx01 Mock.start 200 "h1" None); [reflexivity|discriminate].
Defined.

(** A transaction whose sender is not an address, and one whose signature is
    not hexadecimal. *)
Lemma SendTransaction_rejections_witness :
  let run tx := @SendTransaction Mock.converter
                  (Mock.processor Mock.inventory Mock.failoverScript)
                  Mock.runtime tx Mock.start in
  run Mock.txBad
  = (Val (400, "", Some (ErrInvalidTxFields ErrInvalidSenderAddress
                           (ErrText "invalid bech32 string"))), Mock.start)
  /\ run Mock.txBadSignature
     = (Val (400, "", Some (ErrInvalidTxFields ErrInvalidSignatureHex
                              (ErrText "encoding/hex: invalid input"))),
        Mock.start).
Proof.
  cbv zeta. split.
  - exact (proj1 (@SendTransaction_rejections Mock.converter
                    (Mock.processor Mock.inventory Mock.failoverScript)
                    Mock.runtime Mock.txBad Mock.start) _ eq_refl).
  - exact (proj1 (proj2 (proj2 (@SendTransaction_rejections Mock.converter
                    (Mock.processor Mock.inventory Mock.failoverScript)
                    Mock.runtime Mock.txBadSignature Mock.start)))
             _ _ _ eq_refl eq_refl eq_refl).
Defined.

(** ** SendMultipleTransactions: grouping, and the ways it gives up *)

Section BulkMoreFacts.
Context {pubKeyConverter : PubkeyConverter} {proc : Processor} {rt : Runtime}.

(** X7. groupTxsByShard, when every pointer leads to a transaction: it makes no
    call, and the map it builds holds for each shard exactly the pointers
    whose sender is in that shard, in the order of the input; a shard without
    such a pointer has no entry (no group is empty), and a pointer whose
    sender's shard cannot be computed is in no group. *)
Theorem groupTxsByShard_groups txs s :
  (forall l, l ∈ txs -> is_Some (heap s !! l)) ->
  exists txsMap s',
    groupTxsByShard txs s = (Val txsMap, s')
    /\ calls s' = calls s
    /\ forall sh,
         txsMap !! sh
         = match filter (fun l => shardAt (heap s) l = Some sh) txs with
           | [] => None
           | g => Some g
           end.
Proof.
  intros Hptr. unfold groupTxsByShard.
  destruct (groupTxsLoop_spec txs 0 ∅ s Hptr) as (m & s' & Hrun & Hmap & Hdom & _).
  exists m, s'. split; [done|]. split.
  - pose proof (groupTxsLoop_calls 0 txs ∅ s) as Hc. by rewrite Hrun in Hc.
  - intros sh. specialize (Hmap sh). specialize (Hdom sh).
    rewrite lookup_empty in Hmap. simpl in Hmap.
    destruct (m !! sh) as [g|] eqn:Hg; simpl in Hmap.
    + rewrite <- Hmap. destruct g; [|done].
      destruct Hdom as [H|H]; [by eexists|by rewrite lookup_empty in H; destruct H|].
      by rewrite <- Hmap in H.
    + by rewrite <- Hmap.
Qed.

(** X8. When no transaction of the slice validates (the empty slice included),
    SendMultipleTransactions returns the zero response with
    ErrNoValidTransactionToSend, asks no observer and writes no Index. *)
Theorem SendMultipleTransactions_nothing_valid txs s :
  (forall l, l ∈ txs ->
     exists tx, heap s !! l = Some tx /\ checkTransactionFields tx ≠ None) ->
  SendMultipleTransactions txs s
  = (Val ({| NumOfTxs := 0; TxsHashes := ∅ |}, Some ErrNoValidTransactionToSend), s).
Proof.
  intros Hbad. unfold SendMultipleTransactions, bind.
  rewrite validTxsLoop_spec
    by (intros l Hl; destruct (Hbad l Hl) as (tx & -> & _); by eexists).
  assert (filter (fun l => validAt (heap s) l = true) txs = []) as ->.
  { destruct (filter _ txs) as [|l g] eqn:Hf; [done|]. exfalso.
    assert (l ∈ filter (fun l => validAt (heap s) l = true) txs) as Hl
      by (rewrite Hf; by left).
    apply list_elem_of_filter in Hl as [Hv Hl].
    destruct (Hbad l Hl) as (tx & Htx & Hc). unfold validAt in Hv.
    rewrite Htx in Hv. by destruct (checkTransactionFields tx). }
  reflexivity.
Qed.

Lemma sendGroupsLoop_missing gs total acc s :
  positionsInBatch ->
  (forall sg, sg ∈ gs ->
     exists b, Forall2 (fun l tx => heap s !! l = Some tx) (snd sg) b) ->
  (exists sg e, sg ∈ gs /\ GetObservers (fst sg) = inl e) ->
  fst (sendGroupsLoop gs total acc s)
  = Val ({| NumOfTxs := 0; TxsHashes := ∅ |}, Some ErrMissingObserver).
Proof.
  intros Hpos. revert total acc s.
  induction gs as [|[sh g] gs IH]; intros total acc s Hb (sg & e & Hin & He).
  - by apply elem_of_nil in Hin.
  - simpl. destruct (GetObservers sh) as [e'|obs] eqn:Hobs; [done|].
    apply elem_of_cons in Hin as [->|Hin]; [simpl in He; congruence|].
    destruct (Hb (sh, g)) as [b Hbody]; [by left|]. simpl in Hbody.
    destruct (sendGroupLoop_spec g b obs total acc s Hpos Hbody)
      as (total1 & acc1 & new1 & Hrun & _).
    unfold bind. rewrite Hrun. simpl.
    apply IH; [|by exists sg, e].
    intros sg' Hsg'. simpl. apply Hb. by right.
Qed.


Lemma filter_all {A} (P : A -> Prop) `{!forall x, Decision (P x)} (l : list A) :
  (forall x, x ∈ l -> P x) -> filter P l = l.
Proof.
  induction l as [|x l IH]; intros Hall; [done|].
  rewrite filter_cons, decide_True by (apply Hall; by left).
  f_equal. apply IH. intros y Hy. apply Hall. by right.
Qed.

(** X10. When every transaction of the slice validates, has a sender whose shard
    can be computed, and no pointer occurs twice, each transaction's Index is
    its position in the client's slice once SendMultipleTransactions is done,
    whatever happened to the POSTs. *)
Theorem SendMultipleTransactions_Index_all_valid txs s :
  NoDup txs ->
  (forall l, l ∈ txs ->
     exists tx, heap s !! l = Some tx /\ checkTransactionFields tx = None
                /\ is_Some (senderShard tx)) ->
  forall (i : nat) l,
    txs !! i = Some l ->
    Index <$> heap (snd (SendMultipleTransactions txs s)) !! l = Some (Z.of_nat i).
Proof.
  intros Hnd Hok i l Hi.
  assert (forall l, l ∈ txs -> is_Some (heap s !! l)) as Hptr.
  { intros l' Hl'. destruct (Hok l' Hl') as (tx & -> & _). by eexists. }
  assert (filter (fun l => validAt (heap s) l = true) txs = txs) as HT.
  { apply filter_all. intros l' Hl'. destruct (Hok l' Hl') as (tx & Htx & Hc & _).
    unfold validAt. by rewrite Htx, Hc. }
  unfold SendMultipleTransactions, bind.
  rewrite validTxsLoop_spec by exact Hptr. simpl. rewrite HT.
  destruct (length txs =? 0)%nat eqn:Hlen.
  { apply Nat.eqb_eq in Hlen. destruct txs; [done|done]. }
  unfold groupTxsByShard.
  destruct (groupTxsLoop_spec txs 0 ∅ s Hptr) as (m & s1 & Hrun & _ & _ & Hidx).
  rewrite Hrun. unfold history. simpl. rewrite sendGroupsLoop_heap.
  destruct (Hok l) as (tx & Htx & _ & Hsh); [by eapply list_elem_of_lookup_2|].
  destruct (Hidx l tx Htx) as (n & Hn & Hh); [by eapply list_elem_of_lookup_2|done|].
  rewrite Hh. simpl. do 2 f_equal.
  by rewrite (NoDup_lookup _ _ _ _ Hnd Hn Hi).
Qed.

End BulkMoreFacts.

Lemma shardOneScript_positions inventory :
  @positionsInBatch (Mock.processor inventory Mock.shardOneScript).
Proof.
  intros h a body k. simpl. unfold isSuccess. simpl.
  destruct (String.eqb a "X"); [|discriminate].
  destruct body as [|t1 [|t2 body]]; simpl; intros _ [v Hv].
  - by rewrite lookup_empty in Hv.
  - destruct (decide (k = 0)) as [->|Hne]; [lia|].
    rewrite lookup_insert_ne in Hv by done. by rewrite lookup_empty in Hv.
  - destruct (decide (k = 0)) as [->|Hne0]; [lia|].
    destruct (decide (k = 1)) as [->|Hne1]; [lia|].
    rewrite !lookup_insert_ne in Hv by done.
    rewrite take_nil in Hv. simpl in Hv. by rewrite lookup_empty in Hv.
Qed.

(** Grouping four transactions with senders in shards 0, 1, 0, 1. *)
Lemma groupTxsByShard_groups_witness :
  exists txsMap s',
    @groupTxsByShard Mock.converter (Mock.processor Mock.inventory Mock.deadScript)
      [0; 1; 2; 3]%nat {| heap := Mock.heapFour; calls := [] |}
    = (Val txsMap, s')
    /\ txsMap !! 0 = Some [0; 2]%nat /\ txsMap !! 1 = Some [1; 3]%nat
    /\ txsMap !! 2 = None.
Proof.
  destruct (@groupTxsByShard_groups Mock.converter
              (Mock.processor Mock.inventory Mock.deadScript)
              [0; 1; 2; 3]%nat {| heap := Mock.heapFour; calls := [] |})
    as (m & s' & Hrun & _ & Hm).
  - intros l Hl. cbn [heap].
    destruct (heapFour_pointers l Hl) as [H|H]; rewrite H; by eexists.
  - exists m, s'. split; [exact Hrun|]. rewrite !Hm. by repeat split.
Defined.

(** A slice whose only transaction does not validate, and the empty slice. *)
Lemma SendMultipleTransactions_nothing_valid_witness :
  let run txs := @SendMultipleTransactions Mock.converter
                   (Mock.processor Mock.inventory Mock.bulkScript) Mock.runtime
                   txs {| heap := Mock.heapBad; calls := [] |} in
  run [0%nat]
  = (Val ({| NumOfTxs := 0; TxsHashes := ∅ |}, Some ErrNoValidTransactionToSend),
     {| heap := Mock.heapBad; calls := [] |})
  /\ run []
     = (Val ({| NumOfTxs := 0; TxsHashes := ∅ |}, Some ErrNoValidTransactionToSend),
        {| heap := Mock.heapBad; calls := [] |}).
Proof.
  cbv zeta. split.
  - apply (@SendMultipleTransactions_nothing_valid Mock.converter
             (Mock.processor Mock.inventory Mock.bulkScript) Mock.runtime).
    intros l Hl. apply list_elem_of_singleton in Hl as ->.
    exists Mock.txBad. split; [reflexivity|discriminate].
  - apply (@SendMultipleTransactions_nothing_valid Mock.converter
             (Mock.processor Mock.inventory Mock.bulkScript) Mock.runtime).
    intros l Hl. by apply elem_of_nil in Hl.
Defined.


(** Four valid transactions behind four different pointers. *)
Lemma SendMultipleTransactions_Index_all_valid_witness :
  Index <$> heap (snd (@SendMultipleTransactions Mock.converter
                         (Mock.processor Mock.inventory Mock.bulkScript)
                         Mock.runtime [0; 1; 2; 3]%nat
                         {| heap := Mock.heapFour; calls := [] |})) !! 3%nat
  = Some 3.
Proof.
  refine (@SendMultipleTransactions_Index_all_valid Mock.converter
            (Mock.processor Mock.inventory Mock.bulkScript) Mock.runtime
            [0; 1; 2; 3]%nat {| heap := Mock.heapFour; calls := [] |}
            _ _ 3%nat 3%nat eq_refl).
  - by apply (bool_decide_unpack _).
  - intros l Hl. cbn [heap].
    destruct (heapFour_pointers l Hl) as [H|H]; rewrite H;
      eexists; (split; [reflexivity|]); split; try reflexivity; by eexists.
Defined.

(** * Values by key *)

Section KeyValueFacts.
Context {pubKeyConverter : PubkeyConverter} {proc : Processor}
        {fmt : Fmt} {generic : GenericForwarder}.

Lemma getValueForKeyLoop_skip address key pre rest s :
  allGenericFail (keyRequest address key) (calls s) pre = true ->
  getValueForKeyLoop address key (pre ++ rest) s
  = getValueForKeyLoop address key rest (logged (keyRequest address key) pre s).
Proof.
  revert s. induction pre as [|o pre IH]; intros s H.
  - by rewrite logged_nil.
  - simpl in H. apply andb_true_iff in H as [Ho Hpre].
    rewrite logged_cons. rewrite <- IH by exact Hpre.
    simpl. unfold bind, callGeneric.
    fold (keyRequest address key o).
    by rewrite Ho.
Qed.

Lemma getValueOrError_value response value :
  response !! "value" = Some value ->
  getValueOrError response = (Sprint value, None).
Proof. intros H. unfold getValueOrError. by rewrite H. Qed.

Lemma getValueOrError_no_value response :
  response !! "value" = None ->
  exists text, getValueOrError response = ("", Some (ErrText text)).
Proof.
  intros H. unfold getValueOrError. rewrite H.
  destruct (response !! "error"); eauto.
Qed.


End KeyValueFacts.


(** * The transaction routes of the API *)

Section ApiFacts.
Context {rt : Runtime} {R : Type}.

(** The two errors of the field check come together or not at all. *)
Lemma checkTransactionFields_both tx :
  Api.allHex tx
  \/ exists err1 err2,
       Api.checkTransactionFields tx = (Some err1, Some err2)
       /\ (err1 = ErrInvalidSenderAddress \/ err1 = ErrInvalidReceiverAddress
           \/ err1 = ErrInvalidSignatureHex).
Proof.
  unfold Api.allHex, Api.checkTransactionFields.
  destruct (hexDecodeString (Sender tx)); [right; eauto 6|].
  destruct (hexDecodeString (Receiver tx)); [right; eauto 6|].
  destruct (hexDecodeString (Signature tx)); [right; eauto 6|].
  by left.
Qed.

Lemma checkAll_passes (txs : list Transaction) :
  Forall Api.allHex txs ->
  Api.checkAll (R := R) (Some <$> txs) = Val None.
Proof.
  induction 1 as [|tx txs Htx _ IH]; [reflexivity|].
  simpl. rewrite Htx. exact IH.
Qed.

Lemma checkAll_app (pre : list Transaction) rest :
  Forall Api.allHex pre ->
  Api.checkAll (R := R) ((Some <$> pre) ++ rest) = Api.checkAll rest.
Proof.
  induction 1 as [|tx txs Htx _ IH]; [reflexivity|].
  simpl. rewrite Htx. exact IH.
Qed.

Lemma omap_id_Some (txs : list Transaction) : omap id (Some <$> txs) = txs.
Proof. induction txs as [|tx txs IH]; [reflexivity|]. csimpl. by f_equal. Qed.


(** X13. The handler of /transaction/send-user-funds, given a facade and a body
    that binds: the facade is asked to send an amount that is never above
    FaucetMaxValue. A missing value and a value above the maximum are replaced
    by FaucetDefaultValue; every other value, a negative one included, is
    passed on as it is. The response is 200 "ok" or 500 with the facade's
    error. *)
Theorem Api_SendUserFunds_amount (ef : Api.FacadeHandler R) (gtx : Api.FundsRequest) :
  exists amount,
    Api.SendUserFunds (Api.HasFacade ef) (inr gtx)
    = Val (match Api.facadeSendUserFunds (Api.fundsReceiver gtx) amount with
           | Some e => Api.mkResponse StatusInternalServerError
                         (Api.ErrorWith Api.ErrTxGenerationFailed e)
           | None => Api.mkResponse StatusOK (Api.MessageOf "ok")
           end)
    /\ amount <= Api.FaucetMaxValue
    /\ (Api.fundsValue gtx = None -> amount = Api.FaucetDefaultValue)
    /\ (forall v, Api.fundsValue gtx = Some v ->
          (v <= Api.FaucetMaxValue -> amount = v)
          /\ (Api.FaucetMaxValue < v -> amount = Api.FaucetDefaultValue)).
Proof.
  exists (Api.validateAndSetFaucetValue (Api.fundsValue gtx)).
  split.
  { unfold Api.SendUserFunds.
    by destruct (Api.facadeSendUserFunds _ _). }
  unfold Api.validateAndSetFaucetValue, Api.FaucetMaxValue, Api.FaucetDefaultValue.
  destruct (Api.fundsValue gtx) as [v|].
  - destruct (Z.ltb_spec 1000000 v) as [Hlt|Hle].
    + split; [lia|]. split; [done|].
      intros v' [= <-]. split; [lia | reflexivity].
    + split; [lia|]. split; [done|].
      intros v' [= <-]. split; [reflexivity | lia].
  - split; [lia|]. split; [reflexivity|]. intros v' [=].
Qed.


End ApiFacts.


(** * The indexer's replies *)

Section DatabaseFacts.
Context {fmt : Fmt} {B T : Type}.
Context (unmarshalBlock : json -> option B)
        (unmarshalTransaction : json -> option (Database.IndexerTransaction T)).

Lemma convertHits_spec hs txs :
  Forall Database.isObject hs ->
  Database.convertHits unmarshalTransaction hs txs
  = Val (txs ++ omap (Database.hitTransaction unmarshalTransaction) hs, None).
Proof.
  intros Hobj. revert txs.
  induction Hobj as [|h hs Hh _ IH]; intros txs.
  - simpl. by rewrite app_nil_r.
  - destruct h as [| | | | |hit]; try done.
    simpl. destruct (unmarshalTransaction _) as [tx|].
    + rewrite IH. by rewrite <- app_assoc.
    + exact (IH txs).
Qed.

Lemma hitTransaction_Hash h tx :
  Database.hitTransaction unmarshalTransaction h = Some tx ->
  Database.Hash tx = Database.hitId h.
Proof.
  destruct h as [| | | | |hit]; try done. simpl.
  destruct (unmarshalTransaction _); [|done]. by intros [= <-].
Qed.

Lemma hashes_sublist hs :
  (Database.Hash <$> omap (Database.hitTransaction unmarshalTransaction) hs)
    `sublist_of` (Database.hitId <$> hs).
Proof.
  induction hs as [|h hs IH]; [constructor|].
  csimpl. destruct (Database.hitTransaction unmarshalTransaction h) as [tx|] eqn:Hh.
  - csimpl. rewrite (hitTransaction_Hash _ _ Hh). by apply sublist_skip.
  - by apply sublist_cons.
Qed.

Lemma hashes_all hs :
  Forall (Database.decodes unmarshalTransaction) hs ->
  Database.Hash <$> omap (Database.hitTransaction unmarshalTransaction) hs
  = Database.hitId <$> hs.
Proof.
  induction 1 as [|h hs Hh _ IH]; [reflexivity|].
  destruct h as [| | | | |hit]; try done.
  destruct Hh as [tx Htx]. csimpl. rewrite Htx. csimpl. by rewrite IH.
Qed.

(** X15. convertObjectToTransactions on a search result. A body whose "hits"
    member is missing or is not an object gives errCannotGetTxsFromBody and no
    transaction. Otherwise, when the inner "hits" is an array of objects, the
    conversion never fails: a hit whose "_source" does not decode is left out
    without a trace, every other hit gives one transaction whose Hash is the
    rendering of the hit's "_id" (whatever hash the document itself held), and
    the transactions come in the order of the hits. *)
Theorem convertObjectToTransactions_outcomes (obj : gmap string json) :
  ((forall hits, Database.field obj "hits" <> JObject hits) ->
   Database.convertObjectToTransactions unmarshalTransaction obj
   = Val ([], Some Database.errCannotGetTxsFromBody))
  /\
  (forall hits hs,
     Database.field obj "hits" = JObject hits ->
     Database.field hits "hits" = JArray hs ->
     Forall Database.isObject hs ->
     exists txs,
       Database.convertObjectToTransactions unmarshalTransaction obj
       = Val (txs, None)
       /\ txs = omap (Database.hitTransaction unmarshalTransaction) hs
       /\ (Database.Hash <$> txs) `sublist_of` (Database.hitId <$> hs)
       /\ (Forall (Database.decodes unmarshalTransaction) hs ->
           Database.Hash <$> txs = Database.hitId <$> hs)).
Proof.
  unfold Database.convertObjectToTransactions. split.
  - intros Hno. destruct (Database.field obj "hits") as [| | | | |hits]; try done.
    by destruct (Hno hits).
  - intros hits hs -> -> Hobj.
    rewrite convertHits_spec by exact Hobj. simpl.
    eexists. split; [reflexivity|]. split; [reflexivity|]. split.
    + apply hashes_sublist.
    + apply hashes_all.
Qed.

(** X16. convertObjectToBlock reads the first hit of a search result and nothing
    else: the block is decoded from its "_source" and the hash is the
    rendering of its "_id", whatever hits follow; when the "_source" does not
    decode the result is errCannotUnmarshalBlock with an empty hash. An empty
    array of hits gives errCannotFindBlockInDb. A body whose "hits" member is
    missing or is not an object makes it panic, where
    convertObjectToTransactions reports errCannotGetTxsFromBody. *)
Theorem convertObjectToBlock_outcomes (obj : gmap string json) :
  ((forall hits, Database.field obj "hits" <> JObject hits) ->
   Database.convertObjectToBlock unmarshalBlock obj = Panic
   /\ Database.convertObjectToTransactions unmarshalTransaction obj
      = Val ([], Some Database.errCannotGetTxsFromBody))
  /\
  (forall hits,
     Database.field obj "hits" = JObject hits ->
     Database.field hits "hits" = JArray [] ->
     Database.convertObjectToBlock unmarshalBlock obj
     = Val (None, "", Some Database.errCannotFindBlockInDb))
  /\
  (forall hits hit rest,
     Database.field obj "hits" = JObject hits ->
     Database.field hits "hits" = JArray (JObject hit :: rest) ->
     Database.convertObjectToBlock unmarshalBlock obj
     = Val (match unmarshalBlock (Database.field hit "_source") with
            | Some block => (Some block, Sprint (Database.field hit "_id"), None)
            | None => (None, "", Some Database.errCannotUnmarshalBlock)
            end)).
Proof.
  unfold Database.convertObjectToBlock, Database.convertObjectToTransactions.
  split; [|split].
  - intros Hno. destruct (Database.field obj "hits") as [| | | | |hits]; try done.
    by destruct (Hno hits).
  - by intros hits -> ->.
  - intros hits hit rest -> ->.
    by destruct (unmarshalBlock _).
Qed.

End DatabaseFacts.

(** Three hits, the second garbled: two transactions, with the hashes of the
    first and the third. *)
Lemma convertObjectToTransactions_outcomes_witness :
  @Database.convertObjectToTransactions Mock.fmt string
    Mock.unmarshalTransaction (Mock.searchResult Mock.threeHits)
  = Val ([Database.mkIndexerTransaction "h1" "1";
          Database.mkIndexerTransaction "h3" "3"], None).
Proof.
  pose proof (@convertObjectToTransactions_outcomes Mock.fmt string
                Mock.unmarshalTransaction (Mock.searchResult Mock.threeHits))
    as [_ H].
  destruct (H {[ "hits" := JArray Mock.threeHits ]} Mock.threeHits
              eq_refl eq_refl) as (txs & Hrun & -> & _).
  - repeat constructor.
  - exact Hrun.
Defined.

(** Three hits: the block of the first one. *)
Lemma convertObjectToBlock_outcomes_witness :
  @Database.convertObjectToBlock Mock.fmt string
    Mock.unmarshalBlock (Mock.searchResult Mock.threeHits)
  = Val (Some "1", "h1", None).
Proof.
  pose proof (@convertObjectToBlock_outcomes Mock.fmt string string
                Mock.unmarshalBlock Mock.unmarshalTransaction
                (Mock.searchResult Mock.threeHits))
    as (_ & _ & H).
  exact (H {[ "hits" := JArray Mock.threeHits ]}
           (<[ "_id" := JString "h1" ]> {[ "_source" := Mock.source "1" ]})
           [Mock.hit "h2" (JString "garbled"); Mock.hit "h3" (Mock.source "3")]
           eq_refl eq_refl).
Defined.
